(** * Content-aware video scaling: the batch frame-processing pipeline

    A shallow embedding of [content_aware_scale.py] and the properties of its
    driver loop: batching, ordered collection of the pool's results, writing
    of the frames that were carved, progress reporting and the final
    statistics.

    Conventions of the embedding.
    - Python [float] values are rationals ([Q]); every arithmetic operation
      on floats goes through [rnd], the rounding of the exact result to the
      float format, which is a parameter of the development.  Infinities,
      NaN and signed zeros are not represented.
    - A Python exception is a value [Raise e] of the result type [Res]; a
      call that returns [None] returns [Ok None].
    - OpenCV ([cv2.VideoCapture], [cv2.VideoWriter], [cv2.cvtColor]), the
      seam-carving library ([resize]), the process pool and the clock are
      outside the program: the capture is a finite list of frames with a
      cursor, which only a source that seeks moves back when it is asked to,
      the writer is the list of frames handed to it, the colour conversion
      and [resize] are parameters, the pool is modelled with an arbitrary
      completion order, and the two clock readings are inputs.
    - Creating the sink and the pool and opening the progress file are taken
      to succeed: a progress file that cannot be opened for writing is not
      represented.
    - Messages printed on standard output are not modelled; the early
      [return]s of [process_video] are told apart by a tag. *)

From Stdlib Require Import ZArith QArith Qround Lqa String Ascii Lia DecimalString.
From stdpp Require Import base list.

Open Scope string_scope.
Open Scope list_scope.
Open Scope Z_scope.

(** ** Exceptions and results *)

Inductive exn : Type :=
| ZeroDivisionError
| Error (msg : string).   (* cv2.error, ValueError, ... raised by a library *)

Inductive Res (A : Type) : Type :=
| Ok (a : A)
| Raise (e : exn).

Arguments Ok {A} a.
Arguments Raise {A} e.

#[global] Instance Res_ret : MRet Res := fun A a => Ok a.
#[global] Instance Res_bind : MBind Res := fun A B f m =>
  match m with
  | Ok a => f a
  | Raise e => Raise e
  end.

Definition raises {A} (r : Res A) : Prop := exists e, r = Raise e.

(** ** Python numbers *)

(** [int(x)] on a float: truncation toward zero. *)
Definition int (x : Q) : Z := Z.quot (Qnum x) (Z.pos (Qden x)).

(** The nearest integer, ties to the even one: Python's [round(x)], and the
    rule of the ["%.2f"] conversion once the value is scaled by 100. *)
Definition round_half_even (x : Q) : Z :=
  let f := Qfloor x in
  match (x - inject_Z f ?= 1 # 2)%Q with
  | Lt => f
  | Gt => f + 1
  | Eq => if Z.even f then f else f + 1
  end.

Definition round (x : Q) : Z := round_half_even x.

Definition digits (n : Z) : string := NilZero.string_of_uint (N.to_uint (Z.to_N n)).

Definition two_digits (n : Z) : string :=
  if n <? 10 then ("0" ++ digits n)%string else digits n.

(** The number of hundredths that [f"{x:.2f}"] prints. *)
Definition hundredths (x : Q) : Z := round_half_even (x * 100).

Definition newline : string := String "010" "".

(** [f"{x:.2f}"] *)
Definition format_2f (x : Q) : string :=
  let c := Z.abs (hundredths x) in
  ((if Qle_bool 0 x then "" else "-")
   ++ digits (c / 100) ++ "." ++ two_digits (c mod 100))%string.

(** ** Frames *)

(** A frame is a numpy array of shape (rows, cols, 3); [data] is the
    flattened pixel buffer. *)
Record Image : Type := mkImage {
  rows : Z;
  cols : Z;
  data : list Z
}.

(** [image.shape], restricted to the two components the program reads. *)
Definition shape (image : Image) : Z * Z := (rows image, cols image).

(** The size argument of [seam_carving.resize(src, size)]: the library
    reads its first component as the width and its second as the height of
    the image to produce. *)
Definition size_width (size : Z * Z) : Z := fst size.
Definition size_height (size : Z * Z) : Z := snd size.

Inductive ColorConversion : Type := COLOR_BGR2RGB | COLOR_RGB2BGR.

(** ** The frame source: cv2.VideoCapture *)

(** A video file: what the container's header announces and what it really
    decodes to. *)
Record Video : Type := mkVideo {
  video_opens : bool;
  video_seekable : bool;       (* whether the cursor can be moved back *)
  video_frames : list Image;
  video_fps : Q;               (* the frame rate of the header *)
  video_frame_count : Q        (* the frame count of the header *)
}.

Record VideoCapture : Type := mkCapture {
  cap_opened : bool;
  cap_seekable : bool;         (* whether the source honours a seek *)
  cap_frames : list Image;     (* the frames the container decodes to *)
  cap_pos : nat;               (* index of the next frame to decode *)
  cap_fps : Q;                 (* CAP_PROP_FPS *)
  cap_frame_count : Q          (* CAP_PROP_FRAME_COUNT *)
}.

(** [cv2.VideoCapture(path)]: the cursor starts at the first frame. *)
Definition open_capture (v : Video) : VideoCapture :=
  mkCapture (video_opens v) (video_seekable v) (video_frames v) 0
            (video_fps v) (video_frame_count v).

Inductive CapProp : Type := CAP_PROP_POS_FRAMES | CAP_PROP_FPS | CAP_PROP_FRAME_COUNT.

Definition isOpened (cap : VideoCapture) : bool := cap_opened cap.

Definition cap_get (cap : VideoCapture) (prop : CapProp) : Q :=
  match prop with
  | CAP_PROP_POS_FRAMES => inject_Z (Z.of_nat (cap_pos cap))
  | CAP_PROP_FPS => cap_fps cap
  | CAP_PROP_FRAME_COUNT => cap_frame_count cap
  end.

(** [cap.set(prop, value)]: the answer is whether the property was set.  A
    source that cannot seek leaves its cursor where it is and answers
    [False]; the properties of the header cannot be set. *)
Definition cap_set (cap : VideoCapture) (prop : CapProp) (value : Z)
    : bool * VideoCapture :=
  match prop with
  | CAP_PROP_POS_FRAMES =>
      if cap_seekable cap
      then (true,
            mkCapture (cap_opened cap) (cap_seekable cap) (cap_frames cap) (Z.to_nat value)
                      (cap_fps cap) (cap_frame_count cap))
      else (false, cap)
  | _ => (false, cap)
  end.

(** [ret, frame = cap.read()]: [None] stands for [ret == False]. *)
Definition cap_read (cap : VideoCapture) : option Image * VideoCapture :=
  match cap_frames cap !! cap_pos cap with
  | Some frame =>
      (Some frame,
       mkCapture (cap_opened cap) (cap_seekable cap) (cap_frames cap) (S (cap_pos cap))
                 (cap_fps cap) (cap_frame_count cap))
  | None => (None, cap)
  end.

(** ** The frame sink: cv2.VideoWriter *)

Record VideoWriter : Type := mkWriter {
  vw_path : string;
  vw_fourcc : string;
  vw_fps : Z;
  vw_size : Z * Z;             (* (width, height) *)
  vw_frames : list Image       (* the frames written so far, oldest first *)
}.

Definition vw_write (out : VideoWriter) (frame : Image) : VideoWriter :=
  mkWriter (vw_path out) (vw_fourcc out) (vw_fps out) (vw_size out)
           (vw_frames out ++ [frame]).

(** ** The process pool

    [Pool.starmap] hands every argument tuple to a worker and stores each
    result in a result array that was allocated with one [None] per task, at
    the index of the task.  The workers finish in an order the caller does
    not control: [choose k] picks which of the still pending tasks is the
    [k]-th to complete.  When tasks fail, [starmap] raises the exception
    of the first of them to complete.  (The grouping of tasks into chunks
    is not modelled.) *)

Section Pool.
Context {A R : Type}.
Variable func : A -> Res (option R).

Fixpoint pool_collect (choose : nat -> nat) (k : nat) (n : nat)
    (pending : list (nat * A)) (value : list (option R)) : Res (list (option R)) :=
  match n with
  | O => Ok value
  | S n' =>
      let j := (choose k mod length pending)%nat in
      match pending !! j with
      | None => Ok value
      | Some (i, args) =>
          match func args with
          | Raise e => Raise e
          | Ok result =>
              pool_collect choose (S k) n' (delete j pending) (<[i := result]> value)
          end
      end
  end.

Definition pool_starmap (choose : nat -> nat) (iterable : list A) : Res (list (option R)) :=
  pool_collect choose 0 (length iterable) (imap pair iterable)
               (replicate (length iterable) None).
End Pool.

(** The pool object: the log of the frame buffers it was given. *)
Record Pool : Type := mkPool {
  pool_calls : list (list Image)
}.

(** ** The progress sink

    The file object returned by [open(progress_file, 'w')]: opening
    truncates the file, and every later [write] adds its argument at the end
    of what was written before.  The file's content is the concatenation of
    the chunks. *)
Definition File : Type := list string.

Definition file_content (f : File) : string := foldr String.append "" f.

(** ** The environment of a run *)

Record Env : Type := mkEnv {
  path_exists : bool;          (* os.path.exists(input_path) *)
  video : Video;               (* the file at input_path *)
  getcwd : string;             (* os.getcwd() *)
  start_clock : Q;             (* the first reading of time.time() *)
  end_clock : Q                (* the second reading of time.time() *)
}.

Definition isabs (path : string) : bool := String.prefix "/" path.

Definition path_join (a b : string) : string :=
  if isabs b then b
  else if (String.length a =? 0)%nat || String.prefix "/" (String.substring (String.length a - 1) 1 a)
       then (a ++ b)%string
       else (a ++ "/" ++ b)%string.

(** ** The program *)

Record Statistics : Type := mkStatistics {
  total_time : Q;
  average_fps : Q;
  average_spf : Q
}.

(** The variables of [process_video] that the loop reads and assigns, and
    the objects it calls. *)
Record St : Type := mkSt {
  cap : VideoCapture;
  out : VideoWriter;
  pool : Pool;
  progress_file : File;
  frame_buffer : list Image;
  total_processed_frames : Z
}.

(** How a call of [process_video] ends. *)
Inductive Outcome : Type :=
| NotFound                      (* line 46: the input file does not exist *)
| CannotOpen                    (* line 51: the capture did not open *)
| NoFirstFrame                  (* line 59: the first read failed *)
| FirstFrameFailed              (* line 66: carving the first frame gave None *)
| ProbeRaised (e : exn)         (* an exception while carving the first frame *)
| Aborted (e : exn) (st : St)   (* an exception inside or after the loop *)
| Completed (st : St) (stats : Statistics).

(** Statements of the loop: state passing with exceptions; [None] is a loop
    that was cut short by its iteration bound. *)
Definition M (A : Type) : Type := St -> option (Res A * St).

#[global] Instance M_ret : MRet M := fun A a st => Some (Ok a, st).
#[global] Instance M_bind : MBind M := fun A B f m st =>
  match m st with
  | Some (Ok a, st') => f a st'
  | Some (Raise e, st') => Some (Raise e, st')
  | None => None
  end.

Definition lift {A} (r : Res A) : M A := fun st => Some (r, st).
Definition gets {A} (proj : St -> A) : M A := fun st => Some (Ok (proj st), st).
Definition modify (f : St -> St) : M unit := fun st => Some (Ok tt, f st).

Definition set_cap (c : VideoCapture) (st : St) : St :=
  mkSt c (out st) (pool st) (progress_file st) (frame_buffer st) (total_processed_frames st).
Definition set_out (o : VideoWriter) (st : St) : St :=
  mkSt (cap st) o (pool st) (progress_file st) (frame_buffer st) (total_processed_frames st).
Definition set_pool (p : Pool) (st : St) : St :=
  mkSt (cap st) (out st) p (progress_file st) (frame_buffer st) (total_processed_frames st).
Definition set_progress_file (f : File) (st : St) : St :=
  mkSt (cap st) (out st) (pool st) f (frame_buffer st) (total_processed_frames st).
Definition set_frame_buffer (b : list Image) (st : St) : St :=
  mkSt (cap st) (out st) (pool st) (progress_file st) b (total_processed_frames st).
Definition set_total_processed_frames (n : Z) (st : St) : St :=
  mkSt (cap st) (out st) (pool st) (progress_file st) (frame_buffer st) n.

Definition batch_size : nat := 32.

Section Program.
(** Rounding of an exact result to a float. *)
Variable rnd : Q -> Q.
(** [cv2.cvtColor] *)
Variable cvtColor : Image -> ColorConversion -> Res Image.
(** [seam_carving.resize(image, size)]; the library reads [size] as
    (width, height), see [size_width] and [size_height].  [Ok None] is the
    result that lines 19, 30 and 64 test for. *)
Variable resize : Image -> Z * Z -> Res (option Image).
(** The completion order of the workers: [sched c k] picks the [k]-th
    task to complete during the [c]-th call of [starmap]. *)
Variable sched : nat -> nat -> nat.

Definition fmul (x y : Q) : Q := rnd (x * y).
Definition fsub (x y : Q) : Q := rnd (x - y).
Definition fdiv (x y : Q) : Res Q :=
  if Qeq_bool y 0 then Raise ZeroDivisionError else Ok (rnd (x / y)).
(** [a / b] on two ints *)
Definition truediv (a b : Z) : Res Q :=
  if b =? 0 then Raise ZeroDivisionError else Ok (rnd (inject_Z a / inject_Z b)).

(** Lines 13-14 and the argument of line 17: the pair
    (new_height, new_width) that [seam_carve] gives to [resize]. *)
Definition target_size (image : Image) (scale_x scale_y : Q) : Z * Z :=
  let new_width := int (fmul (inject_Z (snd (shape image))) scale_x) in
  let new_height := int (fmul (inject_Z (fst (shape image))) scale_y) in
  (new_height, new_width).

Definition seam_carve (image : Image) (scale_x scale_y : Q) : Res (option Image) :=
  carved_image ← resize image (target_size image scale_x scale_y);
  mret carved_image.

Definition process_frame (frame : Image) (scale_x scale_y : Q) : Res (option Image) :=
  frame_rgb ← cvtColor frame COLOR_BGR2RGB;
  carved_frame ← seam_carve frame_rgb scale_x scale_y;
  match carved_frame with
  | None => mret None
  | Some carved_frame =>
      bgr ← cvtColor carved_frame COLOR_RGB2BGR;
      mret (Some bgr)
  end.

Definition process_batch (frames : list Image) (scale_x scale_y : Q)
    : Res (list (option Image)) :=
  mapM (fun frame => process_frame frame scale_x scale_y) frames.

(** Lines 93 and 102: the value of
    [pool.starmap(process_frame, [(f, scale_x, scale_y) for f in frame_buffer])]
    when the workers complete in the order [choose]. *)
Definition starmap_frames (choose : nat -> nat) (buffer : list Image) (scale_x scale_y : Q)
    : Res (list (option Image)) :=
  pool_starmap (fun '(frame, scale_x, scale_y) => process_frame frame scale_x scale_y)
               choose (map (fun f => (f, scale_x, scale_y)) buffer).

(** The same call as a statement of the program: the pool logs the buffer,
    and the workers complete in the order [sched] gives for this call. *)
Definition starmap (buffer : list Image) (scale_x scale_y : Q) : M (list (option Image)) :=
  fun st =>
    let calls := pool_calls (pool st) in
    Some (starmap_frames (sched (length calls)) buffer scale_x scale_y,
          set_pool (mkPool (calls ++ [buffer])) st).

(** Lines 94-97 and 103-106. *)
Fixpoint write_frames (processed_frames : list (option Image)) : M unit :=
  match processed_frames with
  | [] => mret tt
  | processed_frame :: rest =>
      match processed_frame with
      | Some frame =>
          modify (fun st => set_out (vw_write (out st) frame) st);;
          modify (fun st => set_total_processed_frames (total_processed_frames st + 1) st)
      | None => mret tt
      end;;
      write_frames rest
  end.

(** Lines 93-97 and 102-106: the buffered frames go through the pool and
    the carved ones are written. *)
Definition process_buffer (scale_x scale_y : Q) : M unit :=
  buffer ← gets frame_buffer;
  processed_frames ← starmap buffer scale_x scale_y;
  write_frames processed_frames.

(** Lines 109-111. *)
Definition report_progress (total_frames : Z) : M unit :=
  current_frame ← gets (fun st => int (cap_get (cap st) CAP_PROP_POS_FRAMES));
  ratio ← lift (truediv current_frame total_frames);
  let progress_percentage := fmul ratio 100 in
  modify (fun st =>
    set_progress_file
      (progress_file st ++ [(format_2f progress_percentage ++ newline)%string]) st).

(** Lines 89-111; [fuel] bounds the number of iterations. *)
Fixpoint loop (fuel : nat) (scale_x scale_y : Q) (total_frames : Z) : M unit :=
  match fuel with
  | O => fun _ => None
  | S fuel' =>
      frame ← (fun st => let '(frame, c) := cap_read (cap st) in
                         Some (Ok frame, set_cap c st));
      match frame with
      | None =>
          buffer ← gets frame_buffer;
          if bool_decide (buffer = []) then mret tt
          else process_buffer scale_x scale_y
      | Some frame =>
          modify (fun st => set_frame_buffer (frame_buffer st ++ [frame]) st);;
          buffer ← gets frame_buffer;
          (if (batch_size <=? length buffer)%nat
           then process_buffer scale_x scale_y;; modify (set_frame_buffer [])
           else mret tt);;
          report_progress total_frames;;
          loop fuel' scale_x scale_y total_frames
      end
  end.

(** Lines 119-122. *)
Definition statistics (start_time end_time : Q) (processed : Z) : Res Statistics :=
  let total := fsub end_time start_time in
  fps ← (if Qlt_le_dec 0 total then fdiv (inject_Z processed) total else mret 0%Q);
  spf ← (if 0 <? processed then fdiv total (inject_Z processed) else mret 0%Q);
  mret (mkStatistics total fps spf).

(** The state in which the loop is entered (lines 77-88). *)
Definition initial_state (cap : VideoCapture) (out : VideoWriter) : St :=
  mkSt cap out (mkPool []) [] [] 0.

(** Lines 44-88: everything before the loop.  Either the call returns
    early, or the loop is entered in the state that is returned. *)
Definition setup (env : Env) (output_path : string) (scale_x scale_y : Q)
    : Outcome + St :=
  if negb (path_exists env) then inl NotFound
  else
    let cap := open_capture (video env) in
    if negb (isOpened cap) then inl CannotOpen
    else
      let fps := int (cap_get cap CAP_PROP_FPS) in
      let '(frame, cap) := cap_read cap in
      match frame with
      | None => inl NoFirstFrame
      | Some frame =>
          match (frame_rgb ← cvtColor frame COLOR_BGR2RGB;
                 seam_carve frame_rgb scale_x scale_y) with
          | Raise e => inl (ProbeRaised e)
          | Ok None => inl FirstFrameFailed
          | Ok (Some carved_frame) =>
              let '(new_height, new_width) := shape carved_frame in
              let output_path := path_join (getcwd env) output_path in
              let out := mkWriter output_path "mp4v" fps (new_width, new_height) [] in
              let '(_, cap) := cap_set cap CAP_PROP_POS_FRAMES 0 in
              inr (initial_state cap out)
          end
      end.

Definition process_video (env : Env) (output_path : string) (scale_x scale_y : Q)
    : option Outcome :=
  let total_frames := int (cap_get (open_capture (video env)) CAP_PROP_FRAME_COUNT) in
  match setup env output_path scale_x scale_y with
  | inl early => Some early
  | inr st =>
      match loop (S (length (cap_frames (cap st)))) scale_x scale_y total_frames st with
      | None => None
      | Some (Raise e, st) => Some (Aborted e st)
      | Some (Ok _, st) =>
          match statistics (start_clock env) (end_clock env)
                           (total_processed_frames st) with
          | Raise e => Some (Aborted e st)
          | Ok stats => Some (Completed st stats)
          end
      end
  end.
End Program.

(** ** Specification vocabulary *)

(** The sizes of the batches of a stream of [T] frames: full batches, then
    the frames that are left over, if any. *)
Definition batch_sizes (T : nat) : list nat :=
  replicate (T / batch_size) batch_size
  ++ (if (T mod batch_size =? 0)%nat then [] else [(T mod batch_size)%nat]).

(** The batches the loop hands to the pool when it starts with [buffer]
    accumulated and [rest] still to be read. *)
Fixpoint batches_from (buffer rest : list Image) : list (list Image) :=
  match rest with
  | [] => if bool_decide (buffer = []) then [] else [buffer]
  | frame :: rest' =>
      if (batch_size <=? length (buffer ++ [frame]))%nat
      then (buffer ++ [frame]) :: batches_from [] rest'
      else batches_from (buffer ++ [frame]) rest'
  end.

(** The capture when the loop is entered: the probe has read the first
    frame, and the source was asked to go back to it (line 79). *)
Definition entry_capture (v : Video) : VideoCapture :=
  snd (cap_set (snd (cap_read (open_capture v))) CAP_PROP_POS_FRAMES 0).

(** The frames that the loop reads. *)
Definition streamed (v : Video) : list Image :=
  drop (cap_pos (entry_capture v)) (video_frames v).

(** The percentage that is reported when the cursor of the capture is at
    [pos] (line 110, when the division does not raise), and the line that is
    written (line 111). *)
Definition percentage (rnd : Q -> Q) (total_frames : Z) (pos : nat) : Q :=
  fmul rnd (rnd (inject_Z (Z.of_nat pos) / inject_Z total_frames)%Q) 100.

Definition progress_line (rnd : Q -> Q) (total_frames : Z) (pos : nat) : string :=
  (format_2f (percentage rnd total_frames pos) ++ newline)%string.

(** [carved] gives, for every frame of [frames], what [process_frame]
    returns on it: none of them makes it raise. *)
Definition carved_by (rnd : Q -> Q) (cvtColor : Image -> ColorConversion -> Res Image)
    (resize : Image -> Z * Z -> Res (option Image)) (scale_x scale_y : Q)
    (carved : Image -> option Image) (frames : list Image) : Prop :=
  Forall (fun frame => process_frame rnd cvtColor resize frame scale_x scale_y
                       = Ok (carved frame)) frames.

(** What [process_frame] gives on a frame, [None] also when it raises. *)
Definition carved_of (rnd : Q -> Q) (cvtColor : Image -> ColorConversion -> Res Image)
    (resize : Image -> Z * Z -> Res (option Image)) (scale_x scale_y : Q)
    (frame : Image) : option Image :=
  match process_frame rnd cvtColor resize frame scale_x scale_y with
  | Ok result => result
  | Raise _ => None
  end.

(** The runs that reach the end of [process_video]: the file exists and
    opens, its header does not announce zero frames, no frame makes
    [process_frame] raise, and the first frame carves to a frame. *)
Definition clean_run (rnd : Q -> Q) (cvtColor : Image -> ColorConversion -> Res Image)
    (resize : Image -> Z * Z -> Res (option Image)) (scale_x scale_y : Q)
    (carved : Image -> option Image) (env : Env) : Prop :=
  path_exists env = true /\
  video_opens (video env) = true /\
  int (video_frame_count (video env)) <> 0 /\
  carved_by rnd cvtColor resize scale_x scale_y carved (video_frames (video env)) /\
  exists frame, head (video_frames (video env)) = Some frame /\ is_Some (carved frame).

(** What a stretch of the run adds to the objects of the program: the
    batches given to the pool, the frames written and the lines reported. *)
Record effect (st st' : St) (batches : list (list Image)) (written : list Image)
    (lines : list string) : Prop := {
  effect_frames : cap_frames (cap st') = cap_frames (cap st);
  effect_pool : pool_calls (pool st') = pool_calls (pool st) ++ batches;
  effect_out : out st' = mkWriter (vw_path (out st)) (vw_fourcc (out st)) (vw_fps (out st))
                                  (vw_size (out st)) (vw_frames (out st) ++ written);
  effect_total : total_processed_frames st' =
                 total_processed_frames st + Z.of_nat (length written);
  effect_progress : progress_file st' = progress_file st ++ lines
}.

(** The state after [frames] were written to the sink and counted. *)
Definition after_writes (frames : list Image) (st : St) : St :=
  mkSt (cap st)
       (mkWriter (vw_path (out st)) (vw_fourcc (out st)) (vw_fps (out st)) (vw_size (out st))
                 (vw_frames (out st) ++ frames))
       (pool st) (progress_file st) (frame_buffer st)
       (total_processed_frames st + Z.of_nat (length frames)).

(** The counter of written frames agrees with the frame sink. *)
Definition counted (st : St) : Prop :=
  total_processed_frames st = Z.of_nat (length (vw_frames (out st))).

(** What holds of the pending tasks and of the result array of a call of
    [starmap] on [iterable] while the workers complete. *)
Record collecting {A R : Type} (func : A -> Res (option R)) (iterable : list A)
    (pending : list (nat * A)) (value : list (option R)) : Prop := {
  collecting_length : length value = length iterable;
  collecting_pending : forall i args, (i, args) ∈ pending -> iterable !! i = Some args;
  collecting_done : forall i args, iterable !! i = Some args ->
    (i, args) ∈ pending \/ exists result, func args = Ok result /\ value !! i = Some result
}.

(** ** Stand-ins for the collaborators, to run the program on examples *)

(** Exact arithmetic: the result of every operation is representable. *)
Definition exact (x : Q) : Q := Qred x.

Fixpoint swap_channels (l : list Z) : list Z :=
  match l with
  | b :: g :: r :: l' => r :: g :: b :: swap_channels l'
  | _ => l
  end.

(** A colour conversion that rejects an empty pixel buffer, as OpenCV does. *)
Definition swap_cvtColor (image : Image) (code : ColorConversion) : Res Image :=
  if bool_decide (data image = []) then Raise (Error "cvtColor: empty image")
  else Ok (mkImage (rows image) (cols image) (swap_channels (data image))).

(** A resize that keeps the first pixels and reads the size as
    (width, height), as the library does.  It gives [None] when the
    requested size has no pixel, to run the branches of the program that
    test for it. *)
Definition crop_resize (image : Image) (size : Z * Z) : Res (option Image) :=
  let w := size_width size in
  let h := size_height size in
  if (h <=? 0) || (w <=? 0) then Ok None
  else Ok (Some (mkImage h w (take (Z.to_nat (3 * h * w)) (data image)))).

(** Workers that finish in submission order, and in reverse order. *)
Definition in_order (c k : nat) : nat := 0%nat.
Definition last_first (c k : nat) : nat := (c + k + 1000)%nat.

(** A frame of [h] rows and [w] columns whose pixels count up from [n]. *)
Definition test_frame (h w : nat) (n : Z) : Image :=
  mkImage (Z.of_nat h) (Z.of_nat w)
          (map (fun i => n + Z.of_nat i) (seq 0 (3 * h * w))).

(** A video of [T] frames of 1 row and 2 columns whose header announces
    [count] frames. *)
Definition test_video (T : nat) (count : Z) : Video :=
  mkVideo true true (map (fun i => test_frame 1 2 (Z.of_nat i)) (seq 0 T)) 30
          (inject_Z count).

(** The same video on a source that cannot seek. *)
Definition unseekable_video (T : nat) (count : Z) : Video :=
  mkVideo true false (video_frames (test_video T count)) 30 (inject_Z count).

Definition test_env (v : Video) : Env := mkEnv true v "/home/user" 10 (25 # 2).

(** A frame with no pixel data, which the colour conversion rejects, a frame
    of one column, which cannot be carved to half its width, and a frame of
    three columns. *)
Definition corrupt_frame : Image := mkImage 1 2 [].
Definition narrow_frame : Image := test_frame 1 1 0.
Definition wide_frame : Image := test_frame 1 3 0.

(** The stand-ins at half the width. *)
Definition half_width (frame : Image) : option Image :=
  carved_of exact swap_cvtColor crop_resize (1 # 2) 1 frame.

(** A buffer whose second frame cannot be carved, in the state in which the
    loop is entered, and a video whose second frame is corrupt. *)
Definition narrow_buffer : list Image := [test_frame 1 2 0; narrow_frame; test_frame 1 2 6].

Definition narrow_state : St :=
  set_frame_buffer narrow_buffer
    (initial_state (open_capture (test_video 3 3))
                   (mkWriter "/home/user/out.mp4" "mp4v" 30 (1, 1) [])).

Definition corrupt_batch : list Image := [test_frame 1 2 0; corrupt_frame; test_frame 1 2 6].

Definition corrupt_video : Video := mkVideo true true corrupt_batch 30 3.

(** [process_frame] raises on no frame of [frames]. *)
Definition never_raises (rnd : Q -> Q) (cvtColor : Image -> ColorConversion -> Res Image)
    (resize : Image -> Z * Z -> Res (option Image)) (scale_x scale_y : Q)
    (frames : list Image) : bool :=
  forallb (fun frame =>
             match process_frame rnd cvtColor resize frame scale_x scale_y with
             | Ok _ => true
             | Raise _ => false
             end) frames.

(** ** Vocabulary of the further properties *)

(** The state a run ends in, when the loop was entered. *)
Definition final_state (outcome : Outcome) : option St :=
  match outcome with
  | Aborted _ st => Some st
  | Completed st _ => Some st
  | _ => None
  end.

(** From [st] to [st'] the loop only moves forward: the sink keeps its
    parameters, and what was written, reported and given to the pool is
    still there, followed by what was added. *)
Record grows (st st' : St) : Prop := {
  grows_frames : cap_frames (cap st') = cap_frames (cap st);
  grows_pos : (cap_pos (cap st) <= cap_pos (cap st'))%nat;
  grows_path : vw_path (out st') = vw_path (out st);
  grows_fourcc : vw_fourcc (out st') = vw_fourcc (out st);
  grows_fps : vw_fps (out st') = vw_fps (out st);
  grows_size : vw_size (out st') = vw_size (out st);
  grows_written : vw_frames (out st) `prefix_of` vw_frames (out st');
  grows_progress : progress_file st `prefix_of` progress_file st';
  grows_pool : pool_calls (pool st) `prefix_of` pool_calls (pool st');
  grows_total : total_processed_frames st <= total_processed_frames st'
}.

(** A video whose only frame is too narrow to be carved. *)
Definition narrow_video : Video := mkVideo true true [narrow_frame] 30 1.

(** * Properties *)

(** ** Rounding and formatting *)

Section Numbers.

Lemma round_half_even_comp (x y : Q) : (x == y)%Q -> round_half_even x = round_half_even y.
Proof.
  intros E. unfold round_half_even.
  rewrite (Qfloor_comp _ _ E).
  assert (E' : (x - inject_Z (Qfloor y) == y - inject_Z (Qfloor y))%Q) by (rewrite E; reflexivity).
  rewrite (Qcompare_comp _ _ E' _ _ (Qeq_refl _)). reflexivity.
Qed.

Lemma round_half_even_bounds (x : Q) :
  Qfloor x <= round_half_even x <= Qfloor x + 1.
Proof.
  unfold round_half_even.
  destruct (_ ?= _)%Q; [destruct (Z.even _)| |]; lia.
Qed.

Lemma round_half_even_mono (x y : Q) : (x <= y)%Q -> round_half_even x <= round_half_even y.
Proof.
  intros L.
  pose proof (Qfloor_resp_le _ _ L) as F.
  destruct (Z.eq_dec (Qfloor x) (Qfloor y)) as [E | N].
  - unfold round_half_even. rewrite E.
    destruct (Qcompare_spec (x - inject_Z (Qfloor y)) (1 # 2)) as [Hx | Hx | Hx];
      destruct (Qcompare_spec (y - inject_Z (Qfloor y)) (1 # 2)) as [Hy | Hy | Hy];
      try destruct (Z.even _); try lia; exfalso; lra.
  - pose proof (round_half_even_bounds x). pose proof (round_half_even_bounds y). lia.
Qed.

Lemma hundredths_mono (x y : Q) : (x <= y)%Q -> hundredths x <= hundredths y.
Proof. intros L. apply round_half_even_mono. lra. Qed.

Lemma format_2f_comp (x y : Q) : (x == y)%Q -> format_2f x = format_2f y.
Proof.
  intros E. unfold format_2f, hundredths.
  assert (E' : (x * 100 == y * 100)%Q) by (rewrite E; reflexivity).
  rewrite (round_half_even_comp _ _ E').
  replace (Qle_bool 0 x) with (Qle_bool 0 y); [reflexivity|].
  destruct (Qle_bool 0 y) eqn:Hy; symmetry.
  - apply Qle_bool_iff. apply Qle_bool_iff in Hy. lra.
  - destruct (Qle_bool 0 x) eqn:Hx; [|reflexivity].
    apply Qle_bool_iff in Hx. assert (0 <= y)%Q as Hy' by lra.
    apply Qle_bool_iff in Hy'. congruence.
Qed.

Lemma exact_eq (x : Q) : (exact x == x)%Q.
Proof. apply Qred_correct. Qed.

Lemma exact_mono (x y : Q) : (x <= y)%Q -> (exact x <= exact y)%Q.
Proof. intros L. rewrite !exact_eq. exact L. Qed.
End Numbers.

(** ** The pool returns the results in the order of the tasks *)

Section PoolFacts.
Context {A R : Type}.
Variable func : A -> Res (option R).
Variable iterable : list A.

Abbreviation collecting := (collecting func iterable).

Lemma collecting_start :
  collecting (imap pair iterable) (replicate (length iterable) None).
Proof.
  split.
  - apply length_replicate.
  - intros i args H. apply elem_of_lookup_imap in H as (j & y & E & L).
    by inversion E; subst.
  - intros i args L. left. apply elem_of_lookup_imap. eauto.
Qed.

Lemma elem_of_delete_other {B} (l : list B) (j : nat) (x y : B) :
  x ∈ l -> l !! j = Some y -> x <> y -> x ∈ delete j l.
Proof.
  intros Hx Hj Hne. apply list_elem_of_lookup in Hx as [i Hi].
  apply list_elem_of_lookup.
  destruct (decide (i < j)%nat).
  - exists i. by rewrite list_lookup_delete_lt.
  - assert (i <> j) by congruence.
    exists (i - 1)%nat. rewrite list_lookup_delete_ge by lia.
    by replace (S (i - 1)) with i by lia.
Qed.

Lemma collecting_step pending value j i args result :
  collecting pending value ->
  pending !! j = Some (i, args) ->
  func args = Ok result ->
  collecting (delete j pending) (<[i := result]> value).
Proof.
  intros [Hlen Hpend Hdone] Hj Hf.
  assert (Hi : iterable !! i = Some args).
  { apply Hpend. apply list_elem_of_lookup. eauto. }
  split.
  - by rewrite length_insert.
  - intros i' args' H. apply Hpend. eapply list_elem_of_delete_inv.
    eassumption.
  - intros i' args' L. destruct (decide (i' = i)) as [-> | Hne].
    + right. exists result.
      assert (args' = args) as -> by congruence.
      split; [done|]. apply list_lookup_insert_eq.
      rewrite Hlen. by eapply lookup_lt_Some.
    + destruct (Hdone _ _ L) as [Hin | (r & Hr & Hv)].
      * left. eapply elem_of_delete_other; [done..|]. congruence.
      * right. exists r. split; [done|]. by rewrite list_lookup_insert_ne.
Qed.

Lemma pool_collect_sound choose n : forall k pending value results,
  length pending = n ->
  collecting pending value ->
  pool_collect func choose k n pending value = Ok results ->
  collecting [] results.
Proof.
  induction n as [|n IH]; intros k pending value results Hn Hc Hrun; simpl in Hrun.
  - destruct pending; [|done]. by inversion Hrun; subst.
  - destruct (pending !! _) as [[i args]|] eqn:Hj.
    + destruct (func args) as [result|e] eqn:Hf; [|done].
      eapply IH; [| |exact Hrun].
      * rewrite length_delete by eauto. lia.
      * by eapply collecting_step.
    + apply lookup_ge_None in Hj.
      assert (choose k `mod` length pending < length pending)%nat
        by (apply Nat.mod_upper_bound; lia).
      lia.
Qed.

Lemma pool_collect_complete choose n : forall k pending value,
  Forall (fun task => exists result, func task.2 = Ok result) pending ->
  exists results, pool_collect func choose k n pending value = Ok results.
Proof.
  induction n as [|n IH]; intros k pending value Hall; simpl; [eauto|].
  destruct (pending !! _) as [[i args]|] eqn:Hj; [|eauto].
  destruct (Forall_lookup_1 _ _ _ _ Hall Hj) as [result Hf]. simpl in Hf.
  rewrite Hf. apply IH. by apply Forall_delete.
Qed.

(** Every result that [starmap] returns is the array of the results of
    the tasks, in the order of the tasks. *)
Lemma pool_starmap_sound choose results :
  pool_starmap func choose iterable = Ok results ->
  length results = length iterable /\
  forall i args, iterable !! i = Some args ->
    exists result, func args = Ok result /\ results !! i = Some result.
Proof.
  intros Hrun.
  destruct (pool_collect_sound choose (length iterable) 0 _ _ results
              (length_imap _ _) collecting_start Hrun) as [Hlen _ Hdone].
  split; [done|]. intros i args L.
  destruct (Hdone _ _ L) as [Hin | ?]; [|done].
  by apply elem_of_nil in Hin.
Qed.

Lemma pool_starmap_complete choose :
  Forall (fun args => exists result, func args = Ok result) iterable ->
  exists results, pool_starmap func choose iterable = Ok results.
Proof.
  intros Hall. apply pool_collect_complete.
  apply Forall_forall. intros [i args] Hin.
  apply elem_of_lookup_imap in Hin as (j & y & E & L). inversion E; subst. simpl.
  eapply Forall_lookup_1 in Hall; eauto.
Qed.

Lemma pool_starmap_ok choose (g : A -> option R) :
  Forall (fun args => func args = Ok (g args)) iterable ->
  pool_starmap func choose iterable = Ok (map g iterable).
Proof.
  intros Hall.
  destruct (pool_starmap_complete choose) as [results Hrun].
  { eapply Forall_impl; [exact Hall|]. simpl. eauto. }
  rewrite Hrun. f_equal.
  destruct (pool_starmap_sound _ _ Hrun) as [Hlen Hres].
  apply list_eq. intros i. rewrite list_lookup_fmap.
  destruct (iterable !! i) as [args|] eqn:L; simpl.
  - destruct (Hres _ _ L) as (r & Hr & ->).
    eapply Forall_lookup_1 in Hall; eauto. simpl in Hall. congruence.
  - apply lookup_ge_None. apply lookup_ge_None in L. lia.
Qed.

Lemma pool_starmap_raises choose args :
  args ∈ iterable -> raises (func args) -> raises (pool_starmap func choose iterable).
Proof.
  intros Hin [e He].
  destruct (pool_starmap func choose iterable) as [results|e'] eqn:Hrun; [|by eexists].
  apply list_elem_of_lookup in Hin as [i L].
  destruct (pool_starmap_sound _ _ Hrun) as [_ Hres].
  destruct (Hres _ _ L) as (r & Hr & _). congruence.
Qed.
End PoolFacts.

(** ** Sequential processing of a batch *)

Section Sequential.
Context {A B : Type}.
Variable f : A -> Res B.

Lemma mapM_Ok (l : list A) (k : list B) :
  mapM f l = Ok k <-> Forall2 (fun x y => f x = Ok y) l k.
Proof.
  revert k. induction l as [|x l IH]; intros k.
  - split; [intros [= <-]; constructor | by inversion 1].
  - change (mapM f (x :: l)) with (y ← f x; k' ← mapM f l; mret (y :: k')).
    split.
    + destruct (f x) as [y|] eqn:Hy; [|done].
      destruct (mapM f l) as [k'|] eqn:Hk; [|done].
      intros [= <-]. constructor; [done|]. by apply IH.
    + inversion 1 as [|? y ? k' Hy Hk]; subst. rewrite Hy.
      apply IH in Hk. by rewrite Hk.
Qed.
End Sequential.

(** ** Statements of the loop *)

Ltac run :=
  unfold mbind, mret, M_bind, M_ret, Res_bind, Res_ret, gets, modify, lift; simpl.

Section StateFacts.
Variable rnd : Q -> Q.
Variable cvtColor : Image -> ColorConversion -> Res Image.
Variable resize : Image -> Z * Z -> Res (option Image).
Variable sched : nat -> nat -> nat.
Variables scale_x scale_y : Q.

Abbreviation process_frame' := (process_frame rnd cvtColor resize).
Abbreviation process_buffer' := (process_buffer rnd cvtColor resize sched).
Abbreviation loop' := (loop rnd cvtColor resize sched).

Lemma effect_refl st : effect st st [] [] [].
Proof.
  split; rewrite ?app_nil_r; try done.
  - by destruct (out st).
  - simpl. lia.
Qed.

Lemma effect_trans st1 st2 st3 b1 b2 w1 w2 l1 l2 :
  effect st1 st2 b1 w1 l1 -> effect st2 st3 b2 w2 l2 ->
  effect st1 st3 (b1 ++ b2) (w1 ++ w2) (l1 ++ l2).
Proof.
  intros [F1 P1 O1 T1 R1] [F2 P2 O2 T2 R2]. split.
  - congruence.
  - rewrite P2, P1. by rewrite app_assoc.
  - rewrite O2, O1. simpl. by rewrite app_assoc.
  - rewrite T2, T1, length_app. lia.
  - rewrite R2, R1. by rewrite app_assoc.
Qed.

Lemma after_writes_nil st : after_writes [] st = st.
Proof.
  destruct st as [c [] p f b n]. unfold after_writes. simpl.
  rewrite app_nil_r. f_equal. lia.
Qed.

Lemma after_writes_app frames1 frames2 st :
  after_writes (frames1 ++ frames2) st = after_writes frames2 (after_writes frames1 st).
Proof.
  unfold after_writes. simpl. rewrite app_assoc, length_app.
  f_equal. lia.
Qed.

Lemma write_frames_run processed_frames : forall st,
  write_frames processed_frames st = Some (Ok tt, after_writes (omap id processed_frames) st).
Proof.
  induction processed_frames as [|[frame|] rest IH]; intros st.
  - simpl. by rewrite after_writes_nil.
  - change (omap id (Some frame :: rest)) with ([frame] ++ omap id rest).
    rewrite after_writes_app. rewrite <- IH. reflexivity.
  - change (omap id (None :: rest)) with (omap id rest).
    rewrite <- IH. reflexivity.
Qed.

Lemma effect_after_writes frames st : effect st (after_writes frames st) [] frames [].
Proof. split; simpl; rewrite ?app_nil_r; done. Qed.

Variable carved : Image -> option Image.
Abbreviation good := (carved_by rnd cvtColor resize scale_x scale_y carved).

Lemma omap_id_fmap (buffer : list Image) :
  omap id (map carved buffer) = omap carved buffer.
Proof.
  induction buffer as [|f buffer IH]; [done|].
  simpl. destruct (carved f); simpl; [f_equal|]; exact IH.
Qed.

Lemma starmap_frames_ok choose (buffer : list Image) :
  good buffer ->
  starmap_frames rnd cvtColor resize choose buffer scale_x scale_y = Ok (map carved buffer).
Proof.
  intros Hgood. unfold starmap_frames.
  rewrite (pool_starmap_ok _ _ _ (fun a => carved a.1.1)).
  - by rewrite <- list_fmap_compose.
  - apply Forall_fmap. eapply Forall_impl; [exact Hgood|]. by intros f Hf.
Qed.

Lemma process_buffer_run st :
  good (frame_buffer st) ->
  process_buffer' scale_x scale_y st =
  Some (Ok tt, after_writes (omap carved (frame_buffer st))
                 (set_pool (mkPool (pool_calls (pool st) ++ [frame_buffer st])) st)).
Proof.
  intros Hgood. unfold process_buffer, starmap. run.
  rewrite (starmap_frames_ok _ _ Hgood).
  by rewrite write_frames_run, omap_id_fmap.
Qed.

Lemma effect_process_buffer st st' :
  process_buffer' scale_x scale_y st = Some (Ok tt, st') ->
  good (frame_buffer st) ->
  effect st st' [frame_buffer st] (omap carved (frame_buffer st)) [] /\
  frame_buffer st' = frame_buffer st /\ cap st' = cap st.
Proof.
  intros Hrun Hgood. rewrite process_buffer_run in Hrun by done.
  inversion Hrun; subst; clear Hrun. split; [|done].
  split; simpl; rewrite ?app_nil_r; done.
Qed.

Lemma int_inject_Z (z : Z) : int (inject_Z z) = z.
Proof. unfold int. simpl. apply Z.quot_1_r. Qed.

Lemma report_progress_run total_frames st :
  total_frames <> 0 ->
  report_progress rnd total_frames st =
  Some (Ok tt, set_progress_file
                 (progress_file st ++ [progress_line rnd total_frames (cap_pos (cap st))]) st).
Proof.
  intros Hnz. unfold report_progress, truediv. run.
  rewrite int_inject_Z.
  destruct (Z.eqb_spec total_frames 0) as [|_]; [done|]. reflexivity.
Qed.

Lemma report_progress_zero st :
  report_progress rnd 0 st = Some (Raise ZeroDivisionError, st).
Proof. reflexivity. Qed.

Lemma cap_read_eof c :
  cap_frames c !! cap_pos c = None -> cap_read c = (None, c).
Proof. intros H. unfold cap_read. by rewrite H. Qed.

Lemma cap_read_frame c frame :
  cap_frames c !! cap_pos c = Some frame ->
  cap_read c = (Some frame,
                mkCapture (cap_opened c) (cap_seekable c) (cap_frames c) (S (cap_pos c))
                          (cap_fps c) (cap_frame_count c)).
Proof. intros H. unfold cap_read. by rewrite H. Qed.

Lemma loop_eof fuel total_frames st :
  cap_frames (cap st) !! cap_pos (cap st) = None ->
  loop' (S fuel) scale_x scale_y total_frames st =
  if bool_decide (frame_buffer st = []) then Some (Ok tt, st)
  else process_buffer' scale_x scale_y st.
Proof.
  intros H. simpl. run. rewrite (cap_read_eof _ H).
  destruct st as [c o p f b n]. simpl. by destruct (bool_decide (b = [])).
Qed.

Lemma loop_frame fuel total_frames st frame :
  cap_frames (cap st) !! cap_pos (cap st) = Some frame ->
  loop' (S fuel) scale_x scale_y total_frames st =
  let st1 := set_frame_buffer (frame_buffer st ++ [frame])
               (set_cap (cap_read (cap st)).2 st) in
  ((if (batch_size <=? length (frame_buffer st1))%nat
    then process_buffer' scale_x scale_y;; modify (set_frame_buffer [])
    else mret tt);;
   report_progress rnd total_frames;;
   loop' fuel scale_x scale_y total_frames) st1.
Proof.
  intros H. simpl. run. rewrite (cap_read_frame _ _ H). reflexivity.
Qed.

Lemma M_bind_ok {A B} (m : M A) (f : A -> M B) st a st' :
  m st = Some (Ok a, st') -> (m ≫= f) st = f a st'.
Proof. intros H. unfold mbind, M_bind. by rewrite H. Qed.

Lemma M_bind_raise {A B} (m : M A) (f : A -> M B) st e st' :
  m st = Some (Raise e, st') -> (m ≫= f) st = Some (Raise e, st').
Proof. intros H. unfold mbind, M_bind. by rewrite H. Qed.

Lemma app_snoc_cons {A} (l1 l2 : list A) (x : A) : l1 ++ x :: l2 = (l1 ++ [x]) ++ l2.
Proof. by rewrite <- app_assoc. Qed.

Lemma batches_from_cons buffer frame rest :
  batches_from buffer (frame :: rest) =
  if (batch_size <=? length (buffer ++ [frame]))%nat
  then (buffer ++ [frame]) :: batches_from [] rest
  else batches_from (buffer ++ [frame]) rest.
Proof. reflexivity. Qed.

(** The loop' on frames that all carve without an exception: it ends, and
    its effect is given by the frames that were buffered and the frames
    that were still to be read. *)
Lemma loop_run total_frames (Hnz : total_frames <> 0) : forall n fuel st,
  (length (cap_frames (cap st)) - cap_pos (cap st))%nat = n ->
  (n < fuel)%nat ->
  (length (frame_buffer st) < batch_size)%nat ->
  good (frame_buffer st ++ drop (cap_pos (cap st)) (cap_frames (cap st))) ->
  exists st',
    loop' fuel scale_x scale_y total_frames st = Some (Ok tt, st') /\
    effect st st'
      (batches_from (frame_buffer st) (drop (cap_pos (cap st)) (cap_frames (cap st))))
      (omap carved (frame_buffer st ++ drop (cap_pos (cap st)) (cap_frames (cap st))))
      (map (progress_line rnd total_frames) (seq (S (cap_pos (cap st))) n)) /\
    cap_pos (cap st') = (cap_pos (cap st) + n)%nat.
Proof.
  induction n as [|n IH]; intros fuel st Hn Hfuel Hbuf Hgood;
    (destruct fuel as [|fuel]; [lia|]).
  - assert (Heof : cap_frames (cap st) !! cap_pos (cap st) = None)
      by (apply lookup_ge_None; lia).
    rewrite loop_eof by done.
    rewrite drop_ge in * by lia. rewrite app_nil_r in *. simpl.
    case_bool_decide as Hb.
    + exists st. rewrite Hb. split; [done|]. split; [apply effect_refl | lia].
    + rewrite process_buffer_run by done. eexists. split; [done|].
      split; [|simpl; lia].
      split; simpl; rewrite ?app_nil_r; done.
  - destruct (cap_frames (cap st) !! cap_pos (cap st)) as [frame|] eqn:Hframe;
      [|apply lookup_ge_None in Hframe; lia].
    rewrite (drop_S _ _ _ Hframe) in *.
    rewrite (loop_frame _ _ _ _ Hframe), (cap_read_frame _ _ Hframe).
    cbv zeta. simpl snd.
    set (st1 := set_frame_buffer _ _).
    rewrite batches_from_cons.
    assert (Hgood1 : good (frame_buffer st ++ [frame])).
    { unfold carved_by in *. rewrite app_snoc_cons in Hgood.
      by apply Forall_app in Hgood as [? _]. }
    assert (Hrest : good (drop (S (cap_pos (cap st))) (cap_frames (cap st)))).
    { unfold carved_by in *. by apply Forall_app in Hgood as [_ [_ ?]%Forall_cons]. }
    change (frame_buffer st1) with (frame_buffer st ++ [frame]).
    destruct (batch_size <=? length (frame_buffer st ++ [frame]))%nat eqn:Hfull.
    + erewrite M_bind_ok; cycle 1.
      { erewrite M_bind_ok; [|by apply process_buffer_run]. reflexivity. }
      erewrite M_bind_ok; [|by apply report_progress_run].
      edestruct (IH fuel) as (st' & Hrun & Heff & Hpos); [..|exists st'; split; [exact Hrun|]].
      * simpl. lia.
      * lia.
      * simpl. unfold batch_size. lia.
      * simpl. exact Hrest.
      * simpl in Heff, Hpos. split; [|lia].
        rewrite (app_snoc_cons (frame_buffer st) (drop _ _)), omap_app.
        eapply (effect_trans _ _ _ [_] _ _ _ [_]); [|exact Heff].
        split; simpl; rewrite ?app_nil_r; done.
    + erewrite M_bind_ok; [|reflexivity].
      erewrite M_bind_ok; [|by apply report_progress_run].
      apply Nat.leb_gt in Hfull.
      edestruct (IH fuel) as (st' & Hrun & Heff & Hpos); [..|exists st'; split; [exact Hrun|]].
      * simpl. lia.
      * lia.
      * simpl. exact Hfull.
      * simpl. unfold carved_by in *. by rewrite app_snoc_cons in Hgood.
      * simpl in Heff, Hpos. split; [|lia].
        rewrite (app_snoc_cons (frame_buffer st) (drop _ _)).
        eapply (effect_trans _ _ _ [] _ [] _ [_]); [|exact Heff].
        split; simpl; rewrite ?app_nil_r; try done.
        -- by destruct (out st).
        -- lia.
Qed.
End StateFacts.

(** ** The partition of the stream into batches *)

Section Batches.
Local Open Scope nat_scope.

Lemma batch_sizes_small n : n < batch_size -> batch_sizes n = if n =? 0 then [] else [n].
Proof.
  intros H. unfold batch_sizes.
  rewrite Nat.div_small, Nat.mod_small by done. reflexivity.
Qed.

Lemma batch_sizes_full n : batch_sizes (batch_size + n) = batch_size :: batch_sizes n.
Proof.
  unfold batch_sizes.
  pose proof (Nat.div_mod_eq n batch_size) as E.
  assert (n mod batch_size < batch_size) as L by (by apply Nat.mod_upper_bound).
  rewrite <- (Nat.div_unique (batch_size + n) batch_size (S (n / batch_size))
                            (n mod batch_size)) by lia.
  rewrite <- (Nat.mod_unique (batch_size + n) batch_size (S (n / batch_size))
                            (n mod batch_size)) by lia.
  reflexivity.
Qed.

Lemma batches_from_concat rest : forall buffer,
  concat (batches_from buffer rest) = buffer ++ rest.
Proof.
  induction rest as [|frame rest IH]; intros buffer.
  - simpl. case_bool_decide as Hb; simpl; rewrite ?app_nil_r; [by subst | done].
  - rewrite batches_from_cons.
    destruct (batch_size <=? length (buffer ++ [frame])); simpl;
      rewrite IH, <- ?app_assoc; done.
Qed.

Lemma batches_from_sizes rest : forall buffer,
  length buffer < batch_size ->
  map length (batches_from buffer rest) = batch_sizes (length buffer + length rest).
Proof.
  induction rest as [|frame rest IH]; intros buffer Hb.
  - simpl. rewrite Nat.add_0_r, batch_sizes_small by done.
    case_bool_decide as He.
    + by subst.
    + destruct buffer; [done|]. reflexivity.
  - rewrite batches_from_cons.
    destruct (batch_size <=? length (buffer ++ [frame])) eqn:Hfull; simpl.
    + apply Nat.leb_le in Hfull. rewrite length_app in *. simpl in *.
      rewrite (IH []) by (unfold batch_size; simpl; lia). simpl.
      replace (length buffer + S (length rest)) with (batch_size + length rest) by lia.
      rewrite batch_sizes_full. f_equal. lia.
    + apply Nat.leb_gt in Hfull. rewrite IH by done.
      rewrite length_app. simpl. f_equal. lia.
Qed.

(** Every batch holds at least one frame and at most [batch_size]. *)
Lemma batches_from_bounds rest : forall buffer,
  length buffer < batch_size ->
  Forall (fun batch => 0 < length batch <= batch_size) (batches_from buffer rest).
Proof.
  induction rest as [|frame rest IH]; intros buffer Hb.
  - simpl. case_bool_decide as He; [done|]. apply Forall_singleton.
    destruct buffer; [done|]. simpl in *. lia.
  - rewrite batches_from_cons.
    destruct (batch_size <=? length (buffer ++ [frame])) eqn:Hfull.
    + apply Nat.leb_le in Hfull. apply Forall_cons. split.
      * rewrite length_app in *. simpl in *. lia.
      * apply IH. unfold batch_size. simpl. lia.
    + apply Nat.leb_gt in Hfull. by apply IH.
Qed.
End Batches.

(** ** Invariants of the loop and its termination *)

Section LoopFacts.
Variable rnd : Q -> Q.
Variable cvtColor : Image -> ColorConversion -> Res Image.
Variable resize : Image -> Z * Z -> Res (option Image).
Variable sched : nat -> nat -> nat.
Variables scale_x scale_y : Q.

Abbreviation process_frame' := (process_frame rnd cvtColor resize).
Abbreviation seam_carve' := (seam_carve rnd resize).
Abbreviation process_buffer' := (process_buffer rnd cvtColor resize sched).
Abbreviation loop' := (loop rnd cvtColor resize sched).
Abbreviation setup' := (setup rnd cvtColor resize).
Abbreviation process_video' := (process_video rnd cvtColor resize sched).

Lemma process_frame_Some frame result :
  process_frame' frame scale_x scale_y = Ok (Some result) ->
  exists frame_rgb carved_frame,
    cvtColor frame COLOR_BGR2RGB = Ok frame_rgb /\
    seam_carve' frame_rgb scale_x scale_y = Ok (Some carved_frame) /\
    cvtColor carved_frame COLOR_RGB2BGR = Ok result.
Proof.
  unfold process_frame. unfold mbind, Res_bind, mret, Res_ret.
  destruct (cvtColor frame COLOR_BGR2RGB) as [frame_rgb|] eqn:E1; [|done].
  destruct (seam_carve' frame_rgb scale_x scale_y) as [[carved_frame|]|] eqn:E2; [|done..].
  destruct (cvtColor carved_frame COLOR_RGB2BGR) as [bgr|] eqn:E3; [|done].
  intros [= <-]. by exists frame_rgb, carved_frame.
Qed.

Lemma process_frame_None frame :
  process_frame' frame scale_x scale_y = Ok None ->
  exists frame_rgb,
    cvtColor frame COLOR_BGR2RGB = Ok frame_rgb /\
    seam_carve' frame_rgb scale_x scale_y = Ok None.
Proof.
  unfold process_frame. unfold mbind, Res_bind, mret, Res_ret.
  destruct (cvtColor frame COLOR_BGR2RGB) as [frame_rgb|] eqn:E1; [|done].
  destruct (seam_carve' frame_rgb scale_x scale_y) as [[carved_frame|]|] eqn:E2;
    [|by exists frame_rgb|done].
  by destruct (cvtColor carved_frame COLOR_RGB2BGR).
Qed.

(** The capture when the loop' is entered: a source that seeks is back on
    its first frame, another one stays behind the frame that was probed. *)
Lemma entry_capture_frames v : cap_frames (entry_capture v) = video_frames v.
Proof.
  unfold entry_capture, cap_set, cap_read, open_capture. simpl.
  destruct (video_frames v !! 0%nat); simpl; by destruct (video_seekable v).
Qed.

Lemma entry_capture_pos v :
  cap_pos (entry_capture v) =
  if video_seekable v then 0%nat
  else match video_frames v with [] => 0%nat | _ :: _ => 1%nat end.
Proof.
  unfold entry_capture, cap_set, cap_read, open_capture. simpl.
  destruct (video_frames v) as [|frame frames]; simpl; by destruct (video_seekable v).
Qed.

Lemma streamed_seekable v : video_seekable v = true -> streamed v = video_frames v.
Proof. intros H. unfold streamed. by rewrite entry_capture_pos, H. Qed.

Lemma streamed_unseekable v : video_seekable v = false -> streamed v = drop 1 (video_frames v).
Proof.
  intros H. unfold streamed. rewrite entry_capture_pos, H.
  by destruct (video_frames v).
Qed.

Lemma streamed_suffix v : streamed v `suffix_of` video_frames v.
Proof. unfold streamed. apply suffix_drop. Qed.

Lemma streamed_length v :
  (cap_pos (entry_capture v) + length (streamed v))%nat = length (video_frames v).
Proof.
  unfold streamed. rewrite length_drop. rewrite entry_capture_pos.
  destruct (video_seekable v); [lia|]. destruct (video_frames v); simpl; lia.
Qed.

(** The probe succeeds: the loop' is entered on the capture that was asked
    to go back to its first frame, with a sink of the size of the carved
    first frame. *)
Lemma setup_run env output_path frame frame_rgb carved_frame :
  path_exists env = true ->
  video_opens (video env) = true ->
  head (video_frames (video env)) = Some frame ->
  cvtColor frame COLOR_BGR2RGB = Ok frame_rgb ->
  seam_carve' frame_rgb scale_x scale_y = Ok (Some carved_frame) ->
  setup' env output_path scale_x scale_y =
  inr (initial_state
         (entry_capture (video env))
         (mkWriter (path_join (getcwd env) output_path) "mp4v"
                   (int (video_fps (video env)))
                   (cols carved_frame, rows carved_frame) [])).
Proof.
  intros Hexists Hopens Hhead Hrgb Hcarve. unfold setup, entry_capture.
  rewrite Hexists. unfold isOpened, open_capture, cap_read. simpl.
  rewrite Hopens. simpl.
  destruct (video_frames (video env)) as [|f frames] eqn:Hframes; [done|].
  simpl in Hhead. injection Hhead as ->. simpl.
  rewrite Hrgb. unfold mbind, Res_bind. rewrite Hcarve. simpl.
  by destruct (video_seekable (video env)).
Qed.

Lemma statistics_run start_time end_time processed :
  exists stats,
    statistics rnd start_time end_time processed = Ok stats /\
    total_time stats = fsub rnd end_time start_time /\
    ((total_time stats <= 0)%Q -> average_fps stats = 0%Q) /\
    (processed <= 0 -> average_spf stats = 0%Q).
Proof.
  unfold statistics, fdiv. unfold mbind, Res_bind, mret, Res_ret.
  set (total := fsub rnd end_time start_time).
  assert (Hspf : 0 < processed -> Qeq_bool (inject_Z processed) 0 = false).
  { intros Hp. destruct (Qeq_bool _ _) eqn:E; [|done].
    apply Qeq_bool_iff in E. unfold Qeq in E. simpl in E. lia. }
  destruct (Qlt_le_dec 0 total) as [Hpos | Hneg].
  - destruct (Qeq_bool total 0) eqn:E; [apply Qeq_bool_iff in E; lra|].
    destruct (Z.ltb_spec 0 processed) as [Hp | Hp].
    + rewrite (Hspf Hp). eexists. split; [done|]. simpl.
      split; [done|]. split; [intros; lra | lia].
    + eexists. split; [done|]. simpl. split; [done|]. split; [intros; lra | done].
  - destruct (Z.ltb_spec 0 processed) as [Hp | Hp].
    + rewrite (Hspf Hp). eexists. split; [done|]. simpl.
      split; [done|]. split; [done | lia].
    + eexists. split; [done|]. simpl. by split.
Qed.

Lemma M_bind_inv {A B} (m : M A) (f : A -> M B) st r st' :
  (m ≫= f) st = Some (r, st') ->
  (exists a st1, m st = Some (Ok a, st1) /\ f a st1 = Some (r, st')) \/
  (exists e, m st = Some (Raise e, st') /\ r = Raise e).
Proof.
  unfold mbind, M_bind. destruct (m st) as [[[a|e] st1]|]; [| |done].
  - intros H. left. eauto.
  - intros [= <- <-]. right. eauto.
Qed.

Lemma counted_after_writes frames st : counted st -> counted (after_writes frames st).
Proof. unfold counted. simpl. rewrite length_app. lia. Qed.

Lemma process_buffer_counted st r st' :
  counted st -> process_buffer' scale_x scale_y st = Some (r, st') -> counted st'.
Proof.
  intros Hc. unfold process_buffer, starmap. run.
  destruct (starmap_frames _ _ _ _ _ _ _) as [processed_frames|e].
  - rewrite write_frames_run. intros [= <- <-]. by apply counted_after_writes.
  - by intros [= <- <-].
Qed.

Lemma report_progress_counted total_frames st r st' :
  counted st -> report_progress rnd total_frames st = Some (r, st') -> counted st'.
Proof.
  intros Hc. unfold report_progress. run.
  destruct (truediv _ _ _); by intros [= <- <-].
Qed.

Lemma loop_counted total_frames fuel : forall st r st',
  counted st -> loop' fuel scale_x scale_y total_frames st = Some (r, st') -> counted st'.
Proof.
  induction fuel as [|fuel IH]; intros st r st' Hc Hrun; [done|].
  destruct (cap_frames (cap st) !! cap_pos (cap st)) as [frame|] eqn:Hframe.
  - erewrite loop_frame in Hrun by exact Hframe. cbv zeta in Hrun.
    set (st1 := set_frame_buffer _ _) in Hrun.
    assert (Hc1 : counted st1) by done.
    apply M_bind_inv in Hrun as [([] & st2 & Hflush & Hrun) | (e & Hflush & ->)].
    + assert (Hc2 : counted st2).
      { destruct (_ <=? _)%nat.
        - apply M_bind_inv in Hflush as [([] & st3 & Hb & [= <-]) | (e & Hb & _)];
            by eapply process_buffer_counted in Hb.
        - by injection Hflush as <-. }
      apply M_bind_inv in Hrun as [([] & st3 & Hrep & Hrun) | (e & Hrep & ->)].
      * eapply IH; [|exact Hrun]. by eapply report_progress_counted.
      * by eapply report_progress_counted.
    + destruct (_ <=? _)%nat; [|done].
      apply M_bind_inv in Hflush as [([] & st3 & Hb & [=]) | (e' & Hb & _)].
      by eapply process_buffer_counted in Hb.
  - rewrite loop_eof in Hrun by done.
    case_bool_decide; [by injection Hrun as <- <-|].
    by eapply process_buffer_counted.
Qed.

(** The loop' ends: one iteration per frame that is left, and one more. *)
Lemma loop_terminates total_frames : forall n fuel st,
  (length (cap_frames (cap st)) - cap_pos (cap st))%nat = n ->
  (n < fuel)%nat ->
  exists result, loop' fuel scale_x scale_y total_frames st = Some result.
Proof.
  assert (Hbuf : forall st, exists result, process_buffer' scale_x scale_y st = Some result).
  { intros st. unfold process_buffer, starmap. run.
    destruct (starmap_frames _ _ _ _ _ _ _); [rewrite write_frames_run|]; eauto. }
  assert (Hrep : forall st, exists result, report_progress rnd total_frames st = Some result).
  { intros st. unfold report_progress. run. destruct (truediv _ _ _); eauto. }
  induction n as [|n IH]; intros fuel st Hn Hfuel; (destruct fuel as [|fuel]; [lia|]).
  - rewrite loop_eof by (apply lookup_ge_None; lia).
    case_bool_decide; eauto.
  - destruct (cap_frames (cap st) !! cap_pos (cap st)) as [frame|] eqn:Hframe;
      [|apply lookup_ge_None in Hframe; lia].
    erewrite loop_frame by exact Hframe. rewrite (cap_read_frame _ _ Hframe).
    cbv zeta. simpl snd. set (st1 := set_frame_buffer _ _).
    assert (Hflush : exists r st2,
      (if (batch_size <=? length (frame_buffer st1))%nat
       then process_buffer' scale_x scale_y;; modify (set_frame_buffer [])
       else mret tt) st1 = Some (r, st2) /\
      cap_frames (cap st2) = cap_frames (cap st) /\
      cap_pos (cap st2) = S (cap_pos (cap st))).
    { destruct (_ <=? _)%nat; [|by exists (Ok tt), st1].
      unfold process_buffer, starmap. run.
      destruct (starmap_frames _ _ _ _ _ _ _); [rewrite write_frames_run|]; simpl; eauto. }
    destruct Hflush as ([[]|e] & st2 & Hflush & Hframes & Hpos).
    + erewrite M_bind_ok by exact Hflush.
      destruct (Hrep st2) as [[[[]|e] st3] Hreport].
      * erewrite M_bind_ok by exact Hreport. apply IH; [|lia].
        revert Hreport. unfold report_progress. run.
        destruct (truediv _ _ _); intros [= <-]; simpl; rewrite Hframes, Hpos; lia.
      * erewrite M_bind_raise by exact Hreport. eauto.
    + erewrite M_bind_raise by exact Hflush. eauto.
Qed.
End LoopFacts.

(** ** Complete runs *)

Section RunFacts.
Variable rnd : Q -> Q.
Variable cvtColor : Image -> ColorConversion -> Res Image.
Variable resize : Image -> Z * Z -> Res (option Image).
Variable sched : nat -> nat -> nat.
Variables scale_x scale_y : Q.
Variable carved : Image -> option Image.

Abbreviation process_frame' := (process_frame rnd cvtColor resize).
Abbreviation seam_carve' := (seam_carve rnd resize).
Abbreviation process_buffer' := (process_buffer rnd cvtColor resize sched).
Abbreviation loop' := (loop rnd cvtColor resize sched).
Abbreviation setup' := (setup rnd cvtColor resize).
Abbreviation process_video' := (process_video rnd cvtColor resize sched).
Abbreviation good := (carved_by rnd cvtColor resize scale_x scale_y carved).

(** [process_video] always ends: the bound on the iterations of the loop'
    is never reached. *)
Lemma process_video_terminates env output_path :
  exists outcome, process_video' env output_path scale_x scale_y = Some outcome.
Proof.
  unfold process_video.
  destruct (setup' env output_path scale_x scale_y) as [early|st]; [eauto|].
  edestruct (loop_terminates rnd cvtColor resize sched scale_x scale_y) as [[r st'] Hrun];
    [reflexivity| |rewrite Hrun].
  - lia.
  - destruct r as [[]|e]; [|eauto].
    destruct (statistics_run rnd (start_clock env) (end_clock env)
                (total_processed_frames st')) as (stats & -> & _). eauto.
Qed.

(** A run on a video whose frames all carve without an exception, whose
    first frame carves to a frame, and whose header does not announce
    zero frames: the run completes, and this is what it did with the
    frames that the loop' read. *)
Lemma process_video_completed env output_path :
  path_exists env = true ->
  video_opens (video env) = true ->
  int (video_frame_count (video env)) <> 0 ->
  good (video_frames (video env)) ->
  (exists frame, head (video_frames (video env)) = Some frame /\ is_Some (carved frame)) ->
  exists st stats,
    process_video' env output_path scale_x scale_y = Some (Completed st stats) /\
    pool_calls (pool st) = batches_from [] (streamed (video env)) /\
    vw_frames (out st) = omap carved (streamed (video env)) /\
    total_processed_frames st =
      Z.of_nat (length (omap carved (streamed (video env)))) /\
    progress_file st =
      map (progress_line rnd (int (video_frame_count (video env))))
          (seq (S (cap_pos (entry_capture (video env)))) (length (streamed (video env)))) /\
    cap_pos (cap st) = length (video_frames (video env)) /\
    statistics rnd (start_clock env) (end_clock env) (total_processed_frames st) = Ok stats.
Proof.
  intros Hexists Hopens Htotal Hgood (frame & Hhead & [result Hresult]).
  assert (Hframe : process_frame' frame scale_x scale_y = Ok (Some result)).
  { rewrite <- Hresult. eapply Forall_forall in Hgood; [exact Hgood|].
    destruct (video_frames (video env)); [done|].
    injection Hhead as ->. apply list_elem_of_here. }
  apply process_frame_Some in Hframe as (frame_rgb & carved_frame & Hrgb & Hcarve & _).
  pose proof (streamed_length (video env)) as Hlen.
  unfold process_video.
  erewrite setup_run by eassumption.
  edestruct (loop_run rnd cvtColor resize sched scale_x scale_y carved _ Htotal
               (length (streamed (video env))))
    as (st' & Hrun & [_ Hpool Hout Htot Hprog] & Hpos);
    [ | | | | simpl cap_get; rewrite Hrun].
  - simpl. rewrite entry_capture_frames. lia.
  - simpl. rewrite entry_capture_frames. lia.
  - simpl. unfold batch_size. lia.
  - simpl. rewrite entry_capture_frames. fold (streamed (video env)).
    unfold carved_by in *. destruct (streamed_suffix (video env)) as [before E].
    rewrite E in Hgood. by apply Forall_app in Hgood as [_ ?].
  - simpl in Hpool, Hout, Htot, Hprog, Hpos.
    rewrite entry_capture_frames in *. fold (streamed (video env)) in *.
    destruct (statistics_run rnd (start_clock env) (end_clock env)
                (total_processed_frames st')) as (stats & Hstats & _).
    rewrite Hstats. exists st', stats.
    rewrite Z.add_0_l in *.
    rewrite Hout. simpl. rewrite <- Htot.
    split; [done|]. split; [done|]. split; [done|]. split; [done|].
    split; [done|]. split; [lia | done].
Qed.

Lemma setup_inv env output_path st0 :
  setup' env output_path scale_x scale_y = inr st0 ->
  exists frame frame_rgb carved_frame,
    head (video_frames (video env)) = Some frame /\
    cvtColor frame COLOR_BGR2RGB = Ok frame_rgb /\
    seam_carve' frame_rgb scale_x scale_y = Ok (Some carved_frame) /\
    st0 = initial_state
            (entry_capture (video env))
            (mkWriter (path_join (getcwd env) output_path) "mp4v"
                      (int (video_fps (video env)))
                      (cols carved_frame, rows carved_frame) []).
Proof.
  unfold setup, entry_capture.
  destruct (negb (path_exists env)); [done|].
  destruct (negb (isOpened _)); [done|].
  unfold cap_read, open_capture. simpl.
  destruct (video_frames (video env)) as [|frame frames] eqn:Hframes; [done|]. simpl.
  unfold mbind, Res_bind.
  destruct (cvtColor frame COLOR_BGR2RGB) as [frame_rgb|] eqn:Hrgb; [|done].
  destruct (seam_carve' frame_rgb scale_x scale_y) as [[carved_frame|]|] eqn:Hcarve;
    [|done..].
  simpl. destruct (video_seekable (video env)); simpl;
    intros [= <-]; by exists frame, frame_rgb, carved_frame.
Qed.

End RunFacts.

(** ** Failures inside the pool *)

Section PoolFailures.
Context {A R : Type}.
Variable func : A -> Res (option R).

Lemma pool_collect_raise_inv choose n : forall k pending value e,
  pool_collect func choose k n pending value = Raise e ->
  exists i args, (i, args) ∈ pending /\ func args = Raise e.
Proof.
  induction n as [|n IH]; intros k pending value e Hrun; simpl in Hrun; [done|].
  destruct (pending !! _) as [[i args]|] eqn:Hj; [|done].
  destruct (func args) as [result|e'] eqn:Hf.
  - apply IH in Hrun as (i' & args' & Hin & Hraise).
    exists i', args'. split; [|done]. by eapply list_elem_of_delete_inv.
  - injection Hrun as ->. exists i, args. split; [|done].
    apply list_elem_of_lookup. eauto.
Qed.

Lemma pool_starmap_raise_inv choose (iterable : list A) e :
  pool_starmap func choose iterable = Raise e ->
  exists args, args ∈ iterable /\ func args = Raise e.
Proof.
  intros Hrun. apply pool_collect_raise_inv in Hrun as (i & args & Hin & Hraise).
  exists args. split; [|done].
  apply elem_of_lookup_imap in Hin as (j & y & E & L). inversion E; subst.
  apply list_elem_of_lookup. eauto.
Qed.
End PoolFailures.

Section LoopOutcomes.
Variable rnd : Q -> Q.
Variable cvtColor : Image -> ColorConversion -> Res Image.
Variable resize : Image -> Z * Z -> Res (option Image).
Variable sched : nat -> nat -> nat.
Variables scale_x scale_y : Q.

Abbreviation process_frame' := (process_frame rnd cvtColor resize).
Abbreviation starmap_frames' := (starmap_frames rnd cvtColor resize).
Abbreviation process_buffer' := (process_buffer rnd cvtColor resize sched).
Abbreviation loop' := (loop rnd cvtColor resize sched).
Abbreviation carved := (carved_of rnd cvtColor resize scale_x scale_y).
Abbreviation good := (carved_by rnd cvtColor resize scale_x scale_y carved).

Lemma starmap_frames_Ok_inv choose (buffer : list Image) results :
  starmap_frames' choose buffer scale_x scale_y = Ok results ->
  good buffer /\ results = map carved buffer.
Proof.
  unfold starmap_frames. intros Hrun.
  apply pool_starmap_sound in Hrun as [Hlen Hres]. rewrite length_map in Hlen.
  assert (Hpos : forall i frame, buffer !! i = Some frame ->
            process_frame' frame scale_x scale_y = Ok (carved frame) /\
            results !! i = Some (carved frame)).
  { intros i frame Hi.
    destruct (Hres i (frame, scale_x, scale_y)) as (result & Hf & Hr).
    { by rewrite list_lookup_fmap, Hi. }
    unfold carved_of. by rewrite Hf. }
  split.
  - apply Forall_lookup. intros i frame Hi. by apply (Hpos i).
  - apply list_eq. intros i. rewrite list_lookup_fmap.
    destruct (buffer !! i) as [frame|] eqn:Hi; simpl.
    + by apply (Hpos i).
    + apply lookup_ge_None. apply lookup_ge_None in Hi. lia.
Qed.

Lemma starmap_frames_Raise_inv choose (buffer : list Image) e :
  starmap_frames' choose buffer scale_x scale_y = Raise e ->
  exists frame, frame ∈ buffer /\ process_frame' frame scale_x scale_y = Raise e.
Proof.
  unfold starmap_frames. intros Hrun.
  apply pool_starmap_raise_inv in Hrun as ([[frame sx] sy] & Hin & Hraise).
  apply list_elem_of_fmap in Hin as (f & [= -> -> ->] & Hin). eauto.
Qed.

(** The two ways in which the processing of the buffer ends. *)
Lemma process_buffer_cases st r st' :
  process_buffer' scale_x scale_y st = Some (r, st') ->
  let logged := set_pool (mkPool (pool_calls (pool st) ++ [frame_buffer st])) st in
  (r = Ok tt /\ good (frame_buffer st) /\
   st' = after_writes (omap carved (frame_buffer st)) logged) \/
  (exists e frame, r = Raise e /\ frame ∈ frame_buffer st /\
     process_frame' frame scale_x scale_y = Raise e /\ st' = logged).
Proof.
  unfold process_buffer, starmap. run.
  destruct (starmap_frames' _ _ _ _) as [results|e] eqn:Hpool.
  - apply starmap_frames_Ok_inv in Hpool as [Hgood ->].
    rewrite write_frames_run. intros [= <- <-]. left.
    split; [done|]. split; [done|]. f_equal.
    clear. induction (frame_buffer st) as [|f l IH]; [done|].
    simpl. destruct (carved f); simpl; [f_equal|]; exact IH.
  - apply starmap_frames_Raise_inv in Hpool as (frame & Hin & Hraise).
    intros [= <- <-]. right. by exists e, frame.
Qed.

(** The loop, whatever its frames do, when the header does not announce
    zero frames: either it ends normally, having given every batch to the
    pool and written the carved frames of all of them, or a frame of some
    batch makes [process_frame] raise, and then the frames written are those
    of the batches before it. *)
Lemma loop_outcome total_frames (Hnz : total_frames <> 0) : forall n fuel st r st',
  (length (cap_frames (cap st)) - cap_pos (cap st))%nat = n ->
  (n < fuel)%nat ->
  (length (frame_buffer st) < batch_size)%nat ->
  loop' fuel scale_x scale_y total_frames st = Some (r, st') ->
  let rest := drop (cap_pos (cap st)) (cap_frames (cap st)) in
  exists done lines,
    lines `prefix_of` map (progress_line rnd total_frames) (seq (S (cap_pos (cap st))) n) /\
    good (concat done) /\
    ((r = Ok tt /\ done = batches_from (frame_buffer st) rest /\
      lines = map (progress_line rnd total_frames) (seq (S (cap_pos (cap st))) n) /\
      effect st st' done (omap carved (concat done)) lines) \/
     (exists e failing frame,
        r = Raise e /\
        (done ++ [failing]) `prefix_of` batches_from (frame_buffer st) rest /\
        frame ∈ failing /\ process_frame' frame scale_x scale_y = Raise e /\
        effect st st' (done ++ [failing]) (omap carved (concat done)) lines)).
Proof.
  induction n as [|n IH]; intros fuel st r st' Hn Hfuel Hbuf Hrun rest;
    (destruct fuel as [|fuel]; [lia|]).
  - assert (Heof : cap_frames (cap st) !! cap_pos (cap st) = None)
      by (apply lookup_ge_None; lia).
    rewrite loop_eof in Hrun by done.
    assert (Hrest : rest = []) by (unfold rest; apply drop_ge; lia).
    rewrite Hrest. simpl batches_from. simpl seq. simpl map.
    case_bool_decide as Hb.
    + injection Hrun as <- <-. exists [], []. split; [done|]. split; [constructor|].
      left. split; [done|]. split; [done|]. split; [done|]. apply effect_refl.
    + apply process_buffer_cases in Hrun
        as [(-> & Hgood & ->) | (e & frame & -> & Hin & Hraise & ->)].
      * exists [frame_buffer st], []. split; [done|].
        split; [simpl; by rewrite app_nil_r|].
        left. split; [done|]. split; [done|]. split; [done|].
        simpl concat. rewrite app_nil_r.
        split; simpl; rewrite ?app_nil_r; done.
      * exists [], []. split; [done|]. split; [constructor|].
        right. exists e, (frame_buffer st), frame.
        split; [done|]. split; [done|]. split; [done|]. split; [done|].
        split; simpl; rewrite ?app_nil_r; try done.
        -- by destruct (out st).
        -- lia.
  - destruct (cap_frames (cap st) !! cap_pos (cap st)) as [frame|] eqn:Hframe;
      [|apply lookup_ge_None in Hframe; lia].
    assert (Hrest : rest = frame :: drop (S (cap_pos (cap st))) (cap_frames (cap st)))
      by (unfold rest; by apply drop_S).
    rewrite Hrest. clear Hrest rest.
    erewrite loop_frame in Hrun by exact Hframe.
    rewrite (cap_read_frame _ _ Hframe) in Hrun. cbv zeta in Hrun. simpl snd in Hrun.
    revert Hrun. set (st1 := set_frame_buffer _ _). intros Hrun.
    rewrite batches_from_cons.
    change (frame_buffer st1) with (frame_buffer st ++ [frame]) in Hrun.
    change (seq (S (cap_pos (cap st))) (S n))
      with (S (cap_pos (cap st)) :: seq (S (S (cap_pos (cap st)))) n).
    destruct (batch_size <=? length (frame_buffer st ++ [frame]))%nat eqn:Hfull.
    + apply M_bind_inv in Hrun as [([] & st2 & Hflush & Hrun) | (e & Hflush & ->)].
      * apply M_bind_inv in Hflush as [([] & st3 & Hb & [= <-]) | (e & Hb & [=])].
        apply process_buffer_cases in Hb
          as [(_ & Hgood & ->) | (e & fr & [=] & _)].
        erewrite M_bind_ok in Hrun by (by apply report_progress_run).
        apply IH in Hrun; [|simpl; lia|lia|simpl; unfold batch_size; lia].
        destruct Hrun as (done & lines & Hlines & Hdone & Hcase). simpl in Hlines, Hcase.
        exists ((frame_buffer st ++ [frame]) :: done),
               (progress_line rnd total_frames (S (cap_pos (cap st))) :: lines).
        split; [simpl; by apply prefix_cons|].
        split; [simpl; unfold carved_by in *; by apply Forall_app|].
        assert (Heff1 : forall st'' batches lines',
                  effect (set_progress_file
                            (progress_file st ++
                             [progress_line rnd total_frames (S (cap_pos (cap st)))])
                            (set_frame_buffer []
                               (after_writes (omap carved (frame_buffer st ++ [frame]))
                                  (set_pool
                                     (mkPool (pool_calls (pool st)
                                              ++ [frame_buffer st ++ [frame]])) st1))))
                         st'' batches (omap carved (concat done)) lines' ->
                  effect st st'' ((frame_buffer st ++ [frame]) :: batches)
                         (omap carved (concat ((frame_buffer st ++ [frame]) :: done)))
                         (progress_line rnd total_frames (S (cap_pos (cap st))) :: lines')).
        { intros st'' batches lines' Heff. simpl concat. rewrite omap_app.
          eapply (effect_trans _ _ _ [_] _ _ _ [_]); [|exact Heff].
          split; simpl; rewrite ?app_nil_r; done. }
        destruct Hcase as [(-> & -> & -> & Heff) | (e & failing & fr & -> & Hpre & Hin & Hraise & Heff)].
        -- left. split; [done|]. split; [done|]. split; [done|]. by apply Heff1.
        -- right. exists e, failing, fr. split; [done|].
           split; [simpl; by apply prefix_cons|]. split; [done|]. split; [done|].
           by apply (Heff1 _ (done ++ [failing])).
      * apply M_bind_inv in Hflush as [([] & st3 & Hb & [=]) | (e' & Hb & [= <-])].
        apply process_buffer_cases in Hb
          as [([=] & _) | (e' & fr & [= <-] & Hin & Hraise & ->)].
        exists [], []. split; [apply prefix_nil|]. split; [constructor|].
        right. exists e, (frame_buffer st ++ [frame]), fr.
        split; [done|]. split; [by eexists|]. split; [done|]. split; [done|].
        split; simpl; rewrite ?app_nil_r; try done.
        -- by destruct (out st).
        -- lia.
    + apply Nat.leb_gt in Hfull.
      erewrite M_bind_ok in Hrun by reflexivity.
      erewrite M_bind_ok in Hrun by (by apply report_progress_run).
      apply IH in Hrun; [|simpl; lia|lia|simpl; exact Hfull].
      destruct Hrun as (done & lines & Hlines & Hdone & Hcase). simpl in Hlines, Hcase.
      exists done, (progress_line rnd total_frames (S (cap_pos (cap st))) :: lines).
      split; [simpl; by apply prefix_cons|]. split; [done|].
      assert (Heff1 : forall st'' batches lines',
                effect (set_progress_file
                          (progress_file st ++
                           [progress_line rnd total_frames (S (cap_pos (cap st)))]) st1)
                       st'' batches (omap carved (concat done)) lines' ->
                effect st st'' batches (omap carved (concat done))
                       (progress_line rnd total_frames (S (cap_pos (cap st))) :: lines')).
      { intros st'' batches lines' Heff.
        eapply (effect_trans _ _ _ [] _ [] _ [_]); [|exact Heff].
        split; simpl; rewrite ?app_nil_r; try done.
        - by destruct (out st).
        - lia. }
      destruct Hcase as [(-> & -> & -> & Heff) | (e & failing & fr & -> & Hpre & Hin & Hraise & Heff)].
      * left. split; [done|]. split; [done|]. split; [done|]. by apply Heff1.
      * right. exists e, failing, fr. split; [done|]. split; [done|].
        split; [done|]. split; [done|]. by apply Heff1.
Qed.
End LoopOutcomes.

(** ** The loop only moves forward *)

Section Growth.
Variable rnd : Q -> Q.
Variable cvtColor : Image -> ColorConversion -> Res Image.
Variable resize : Image -> Z * Z -> Res (option Image).
Variable sched : nat -> nat -> nat.
Variables scale_x scale_y : Q.

Abbreviation process_buffer' := (process_buffer rnd cvtColor resize sched).
Abbreviation loop' := (loop rnd cvtColor resize sched).

Lemma grows_refl st : grows st st.
Proof. by split. Qed.

Lemma grows_trans st1 st2 st3 : grows st1 st2 -> grows st2 st3 -> grows st1 st3.
Proof.
  intros [] []. split; try congruence; try (by etrans); lia.
Qed.

Lemma grows_after_writes frames st : grows st (after_writes frames st).
Proof. split; simpl; try done; [by apply prefix_app_r | lia]. Qed.

Lemma process_buffer_grows st r st' :
  process_buffer' scale_x scale_y st = Some (r, st') ->
  grows st st' /\ frame_buffer st' = frame_buffer st /\ cap st' = cap st.
Proof.
  unfold process_buffer, starmap. run.
  destruct (starmap_frames _ _ _ _ _ _ _) as [results|e].
  - rewrite write_frames_run. intros [= <- <-]. split; [|done].
    eapply grows_trans; [|apply grows_after_writes].
    split; simpl; try done. by apply prefix_app_r.
  - intros [= <- <-]. split; [|done]. split; simpl; try done. by apply prefix_app_r.
Qed.

Lemma report_progress_grows total_frames st r st' :
  report_progress rnd total_frames st = Some (r, st') ->
  grows st st' /\ frame_buffer st' = frame_buffer st /\ cap st' = cap st.
Proof.
  unfold report_progress. run.
  destruct (truediv _ _ _); intros [= <- <-]; (split; [|done]).
  - split; simpl; try done. by apply prefix_app_r.
  - apply grows_refl.
Qed.

Lemma loop_grows total_frames fuel : forall st r st',
  loop' fuel scale_x scale_y total_frames st = Some (r, st') -> grows st st'.
Proof.
  induction fuel as [|fuel IH]; intros st r st' Hrun; [done|].
  destruct (cap_frames (cap st) !! cap_pos (cap st)) as [frame|] eqn:Hframe.
  - erewrite loop_frame in Hrun by exact Hframe.
    rewrite (cap_read_frame _ _ Hframe) in Hrun. cbv zeta in Hrun. simpl snd in Hrun.
    revert Hrun. set (st1 := set_frame_buffer _ _). intros Hrun.
    assert (H1 : grows st st1) by (split; simpl; try done; lia).
    apply (grows_trans _ _ _ H1). clear H1.
    apply M_bind_inv in Hrun as [([] & st2 & Hflush & Hrun) | (e & Hflush & ->)].
    + assert (H2 : grows st1 st2).
      { destruct (_ <=? _)%nat.
        - apply M_bind_inv in Hflush as [([] & st3 & Hb & [= <-]) | (e & Hb & _)];
            apply process_buffer_grows in Hb as [Hb _]; [|done].
          eapply grows_trans; [exact Hb|]. by split.
        - injection Hflush as <-. apply grows_refl. }
      apply (grows_trans _ _ _ H2).
      apply M_bind_inv in Hrun as [([] & st3 & Hrep & Hrun) | (e & Hrep & ->)].
      * apply report_progress_grows in Hrep as [Hrep _].
        apply (grows_trans _ _ _ Hrep). by eapply IH.
      * by apply report_progress_grows in Hrep as [Hrep _].
    + destruct (_ <=? _)%nat; [|done].
      apply M_bind_inv in Hflush as [([] & st3 & Hb & [=]) | (e' & Hb & _)].
      by apply process_buffer_grows in Hb as [Hb _].
  - rewrite loop_eof in Hrun by done.
    case_bool_decide; [injection Hrun as <- <-; apply grows_refl|].
    by apply process_buffer_grows in Hrun as [Hrun _].
Qed.

(** More iterations than the frames that are left do not change what the
    loop does. *)
Lemma loop_fuel total_frames : forall n fuel1 fuel2 st,
  (length (cap_frames (cap st)) - cap_pos (cap st))%nat = n ->
  (n < fuel1)%nat -> (n < fuel2)%nat ->
  loop' fuel1 scale_x scale_y total_frames st = loop' fuel2 scale_x scale_y total_frames st.
Proof.
  induction n as [|n IH]; intros fuel1 fuel2 st Hn H1 H2;
    (destruct fuel1 as [|fuel1]; [lia|]); (destruct fuel2 as [|fuel2]; [lia|]).
  - by rewrite !loop_eof by (apply lookup_ge_None; lia).
  - destruct (cap_frames (cap st) !! cap_pos (cap st)) as [frame|] eqn:Hframe;
      [|apply lookup_ge_None in Hframe; lia].
    erewrite !loop_frame by exact Hframe. rewrite (cap_read_frame _ _ Hframe).
    cbv zeta. simpl snd. set (st1 := set_frame_buffer _ _).
    set (flush := if (batch_size <=? length (frame_buffer st1))%nat
                  then process_buffer' scale_x scale_y;; modify (set_frame_buffer [])
                  else mret tt).
    assert (Hflush : forall r st2, flush st1 = Some (r, st2) ->
              cap_frames (cap st2) = cap_frames (cap st) /\
              cap_pos (cap st2) = S (cap_pos (cap st))).
    { unfold flush. intros r st2. destruct (_ <=? _)%nat; [|by intros [= <- <-]].
      intros Hf. apply M_bind_inv in Hf as [([] & st3 & Hb & [= <- <-]) | (e & Hb & _)];
        apply process_buffer_grows in Hb as (_ & _ & Hcap); simpl; by rewrite Hcap. }
    unfold mbind at 1 3. unfold M_bind.
    destruct (flush st1) as [[[[]|e] st2]|] eqn:Hf; [|done..].
    destruct (Hflush _ _ eq_refl) as [Hframes Hpos].
    unfold mbind at 1 2. unfold M_bind.
    destruct (report_progress rnd total_frames st2) as [[[[]|e] st3]|] eqn:Hrep; [|done..].
    apply report_progress_grows in Hrep as (_ & _ & Hcap).
    apply IH; [rewrite Hcap, Hframes, Hpos; lia | lia..].
Qed.
End Growth.

(** ** Truncation of scaled sizes *)

Section Sizes.
Variable rnd : Q -> Q.
Hypothesis rnd_monotone : forall x y : Q, (x <= y)%Q -> (rnd x <= rnd y)%Q.



Lemma rnd_proper (x y : Q) : (x == y)%Q -> (rnd x == rnd y)%Q.
Proof. intros E. apply Qle_antisym; apply rnd_monotone; rewrite E; apply Qle_refl. Qed.

End Sizes.

(** ** How a run ends *)

Section RunOutcomes.
Variable rnd : Q -> Q.
Variable cvtColor : Image -> ColorConversion -> Res Image.
Variable resize : Image -> Z * Z -> Res (option Image).
Variable sched : nat -> nat -> nat.
Variables scale_x scale_y : Q.

Abbreviation process_frame' := (process_frame rnd cvtColor resize).
Abbreviation seam_carve' := (seam_carve rnd resize).
Abbreviation process_batch' := (process_batch rnd cvtColor resize).
Abbreviation starmap_frames' := (starmap_frames rnd cvtColor resize).
Abbreviation loop' := (loop rnd cvtColor resize sched).
Abbreviation setup' := (setup rnd cvtColor resize).
Abbreviation process_video' := (process_video rnd cvtColor resize sched).
Abbreviation carved := (carved_of rnd cvtColor resize scale_x scale_y).
Abbreviation total_frames_of env :=
  (int (cap_get (open_capture (video env)) CAP_PROP_FRAME_COUNT)).

Lemma setup_inl env output_path early :
  setup' env output_path scale_x scale_y = inl early -> final_state early = None.
Proof.
  unfold setup.
  destruct (negb (path_exists env)); [by intros [= <-]|].
  destruct (negb (isOpened _)); [by intros [= <-]|].
  destruct (cap_read _) as [[frame|] c]; [|by intros [= <-]].
  destruct (_ ≫= _) as [[carved_frame|]|]; [|by intros [= <-]..].
  by destruct (shape carved_frame), (cap_set _ _ _).
Qed.

Lemma setup_inr_env env output_path st0 :
  setup' env output_path scale_x scale_y = inr st0 ->
  path_exists env = true /\ video_opens (video env) = true.
Proof.
  unfold setup, isOpened, open_capture. simpl.
  destruct (path_exists env); [|done]. destruct (video_opens (video env)); [|done]. done.
Qed.

(** How [process_video] ends: before the loop, with an exception of the
    loop, or after the statistics. *)
Lemma process_video_inv env output_path outcome :
  process_video' env output_path scale_x scale_y = Some outcome ->
  (setup' env output_path scale_x scale_y = inl outcome /\ final_state outcome = None) \/
  (exists st0 r st,
     setup' env output_path scale_x scale_y = inr st0 /\
     loop' (S (length (video_frames (video env)))) scale_x scale_y
           (int (video_frame_count (video env))) st0 = Some (r, st) /\
     final_state outcome = Some st /\
     ((exists e, r = Raise e /\ outcome = Aborted e st) \/
      (r = Ok tt /\ exists stats,
         statistics rnd (start_clock env) (end_clock env) (total_processed_frames st)
         = Ok stats /\ outcome = Completed st stats))).
Proof.
  unfold process_video.
  destruct (setup' _ _ _ _) as [early|st0] eqn:Hsetup.
  - intros [= <-]. left. split; [done|]. by eapply setup_inl.
  - pose proof Hsetup as Hst0.
    apply setup_inv in Hst0 as (? & ? & ? & _ & _ & _ & Hst0).
    assert (Hframes : cap_frames (cap st0) = video_frames (video env))
      by (subst; apply entry_capture_frames).
    rewrite Hframes. simpl cap_get.
    destruct (loop' _ _ _ _ _) as [[[[]|e] st]|] eqn:Hloop; [| |done].
    + destruct (statistics_run rnd (start_clock env) (end_clock env)
                  (total_processed_frames st)) as (stats & Hstats & _).
      rewrite Hstats. intros [= <-]. right. exists st0, (Ok tt), st.
      split; [done|]. split; [done|]. split; [done|]. right. split; [done|]. by exists stats.
    + intros [= <-]. right. exists st0, (Raise e), st.
      split; [done|]. split; [done|]. split; [done|]. left. by exists e.
Qed.

Lemma omap_length_le {A B} (f : A -> option B) (l : list A) :
  (length (omap f l) <= length l)%nat.
Proof.
  induction l as [|x l IH]; [done|].
  change (omap f (x :: l))
    with (match f x with Some y => y :: omap f l | None => omap f l end).
  destruct (f x); simpl length; lia.
Qed.

(** What is known of the state in which a run ends, when the header does
    not announce zero frames. *)
Lemma run_outcome env output_path outcome st :
  process_video' env output_path scale_x scale_y = Some outcome ->
  final_state outcome = Some st ->
  int (video_frame_count (video env)) <> 0 ->
  let frames := streamed (video env) in
  let lines := map (progress_line rnd (int (video_frame_count (video env))))
                   (seq (S (cap_pos (entry_capture (video env)))) (length frames)) in
  exists done,
    carved_by rnd cvtColor resize scale_x scale_y carved (concat done) /\
    vw_frames (out st) = omap carved (concat done) /\
    total_processed_frames st = Z.of_nat (length (vw_frames (out st))) /\
    progress_file st `prefix_of` lines /\
    ((exists stats, outcome = Completed st stats /\
        done = batches_from [] frames /\ pool_calls (pool st) = done /\
        progress_file st = lines) \/
     (exists e failing frame,
        outcome = Aborted e st /\
        pool_calls (pool st) = done ++ [failing] /\
        (done ++ [failing]) `prefix_of` batches_from [] frames /\
        frame ∈ failing /\ process_frame' frame scale_x scale_y = Raise e)).
Proof.
  intros Hrun Hfinal Hnz. cbv zeta.
  apply process_video_inv in Hrun as [[_ Hnone] | (st0 & r & st1 & Hsetup & Hloop & Hst & Hcase)];
    [congruence|].
  assert (st1 = st) as -> by congruence.
  apply setup_inv in Hsetup as (? & ? & ? & _ & _ & _ & ->).
  pose proof (streamed_length (video env)) as Hlen.
  apply (loop_outcome _ _ _ _ _ _ _ Hnz (length (streamed (video env)))) in Hloop;
    [|simpl; rewrite entry_capture_frames; lia|lia|simpl; unfold batch_size; lia].
  simpl in Hloop. rewrite entry_capture_frames in Hloop.
  fold (streamed (video env)) in Hloop.
  destruct Hloop as (done & lines' & Hpre & Hgood & Hloop).
  exists done. split; [done|].
  assert (Hstate : forall batches,
            effect (initial_state (entry_capture (video env))
                      (mkWriter (path_join (getcwd env) output_path) "mp4v"
                                (int (video_fps (video env))) (cols x1, rows x1) []))
                   st batches (omap carved (concat done)) lines' ->
            vw_frames (out st) = omap carved (concat done) /\
            total_processed_frames st = Z.of_nat (length (vw_frames (out st))) /\
            progress_file st = lines' /\ pool_calls (pool st) = batches).
  { intros batches [_ Hpool Hout Htot Hprog]. simpl in *.
    rewrite Hout. simpl. split; [done|]. split; [lia|]. done. }
  destruct Hloop as [(-> & -> & -> & Heff) | (e & failing & frame & -> & Hpref & Hin & Hraise & Heff)];
    apply Hstate in Heff as (Hout & Htot & Hprog & Hpool).
  - split; [done|]. split; [done|]. split; [by rewrite Hprog|].
    left. destruct Hcase as [(e & [=] & _) | (_ & stats & _ & ->)].
    by exists stats.
  - split; [done|]. split; [done|]. split; [by rewrite Hprog|].
    right. destruct Hcase as [(e' & [= <-] & ->) | ([=] & _)].
    by exists e, failing, frame.
Qed.
End RunOutcomes.

Section SequentialFailures.
Context {A B : Type}.
Variable f : A -> Res B.

Lemma mapM_cons (x : A) (l : list A) :
  mapM f (x :: l) = y ← f x; k ← mapM f l; mret (y :: k).
Proof. reflexivity. Qed.

Lemma mapM_app (l1 l2 : list A) :
  mapM f (l1 ++ l2) = k1 ← mapM f l1; k2 ← mapM f l2; mret (k1 ++ k2).
Proof.
  induction l1 as [|x l1 IH].
  - simpl. by destruct (mapM f l2).
  - rewrite <- app_comm_cons, !mapM_cons, IH.
    destruct (f x); [|done]. simpl.
    destruct (mapM f l1); [|done]. simpl. by destruct (mapM f l2).
Qed.

Lemma mapM_Raise (l : list A) (e : exn) :
  mapM f l = Raise e <->
  exists l1 x l2,
    l = l1 ++ x :: l2 /\ Forall (fun y => exists r, f y = Ok r) l1 /\ f x = Raise e.
Proof.
  induction l as [|x l IH].
  - split; [done|]. intros (l1 & y & l2 & E & _). by destruct l1.
  - rewrite mapM_cons. split.
    + destruct (f x) as [y|e'] eqn:Hx; simpl.
      * destruct (mapM f l) as [k|e'] eqn:Hl; [done|]. simpl. intros [= ->].
        destruct (proj1 IH eq_refl) as (l1 & z & l2 & -> & Hall & Hz).
        exists (x :: l1), z, l2. split; [done|]. split; [|done].
        constructor; [by exists y | done].
      * intros [= ->]. exists [], x, l. split; [done|]. split; [constructor | done].
    + intros (l1 & z & l2 & E & Hall & Hz). destruct l1 as [|y l1].
      * injection E as -> ->. by rewrite Hz.
      * injection E as -> ->. apply Forall_cons in Hall as [[r Hr] Hall].
        rewrite Hr. simpl.
        assert (Hl : mapM f (l1 ++ z :: l2) = Raise e)
          by (apply IH; by exists l1, z, l2).
        by rewrite Hl.
Qed.
End SequentialFailures.

Section CompletedRuns.
Variable rnd : Q -> Q.
Variable cvtColor : Image -> ColorConversion -> Res Image.
Variable resize : Image -> Z * Z -> Res (option Image).
Variable sched : nat -> nat -> nat.

Abbreviation process_frame' := (process_frame rnd cvtColor resize).
Abbreviation seam_carve' := (seam_carve rnd resize).
Abbreviation process_batch' := (process_batch rnd cvtColor resize).
Abbreviation starmap_frames' := (starmap_frames rnd cvtColor resize).
Abbreviation loop' := (loop rnd cvtColor resize sched).
Abbreviation setup' := (setup rnd cvtColor resize).
Abbreviation process_video' := (process_video rnd cvtColor resize sched).
Abbreviation carved := (carved_of rnd cvtColor resize).

(** Under a header that announces zero frames the first report raises: the
    loop' stops after its first read, before a batch is complete. *)
Lemma loop_zero_header scale_x scale_y st frame fuel :
  cap_frames (cap st) !! cap_pos (cap st) = Some frame ->
  (S (length (frame_buffer st)) < batch_size)%nat ->
  exists st',
    loop' (S fuel) scale_x scale_y 0 st = Some (Raise ZeroDivisionError, st') /\
    pool_calls (pool st') = pool_calls (pool st) /\
    out st' = out st /\
    progress_file st' = progress_file st /\
    total_processed_frames st' = total_processed_frames st.
Proof.
  intros Hframe Hbuf. erewrite loop_frame by exact Hframe. cbv zeta.
  set (st1 := set_frame_buffer _ _).
  assert (Hsmall : (batch_size <=? length (frame_buffer st1))%nat = false).
  { apply Nat.leb_gt. unfold st1. simpl. rewrite length_app. simpl. lia. }
  rewrite Hsmall. erewrite M_bind_ok by reflexivity.
  erewrite M_bind_raise by apply report_progress_zero.
  by exists st1.
Qed.

Lemma streamed_lookup v :
  cap_frames (entry_capture v) !! cap_pos (entry_capture v) = head (streamed v).
Proof.
  rewrite entry_capture_frames. unfold streamed.
  rewrite <- (Nat.add_0_r (cap_pos (entry_capture v))) at 1.
  rewrite <- lookup_drop. by destruct (drop _ _).
Qed.

(** A run under a header that announces zero frames: it is aborted by the
    first report when the loop' has a frame to read, and reaches its end
    when it has none. *)
Lemma run_zero_header env output_path scale_x scale_y st0 :
  setup' env output_path scale_x scale_y = inr st0 ->
  int (video_frame_count (video env)) = 0 ->
  (streamed (video env) <> [] ->
   exists st,
     process_video' env output_path scale_x scale_y = Some (Aborted ZeroDivisionError st) /\
     progress_file st = [] /\ vw_frames (out st) = [] /\ pool_calls (pool st) = []) /\
  (streamed (video env) = [] ->
   exists stats,
     process_video' env output_path scale_x scale_y = Some (Completed st0 stats)).
Proof.
  intros Hsetup Hzero. unfold process_video. rewrite Hsetup.
  simpl cap_get. rewrite Hzero.
  apply setup_inv in Hsetup as (frame & _ & carved_frame & _ & _ & _ & ->).
  pose proof (streamed_lookup (video env)) as Hlookup.
  split; intros Hstream.
  - destruct (streamed (video env)) as [|next rest]; [done|]. simpl in Hlookup.
    edestruct (loop_zero_header scale_x scale_y
                 (initial_state (entry_capture (video env))
                    (mkWriter (path_join (getcwd env) output_path) "mp4v"
                              (int (video_fps (video env)))
                              (cols carved_frame, rows carved_frame) [])))
      as (st & -> & Hpool & Hout & Hprog & _); [exact Hlookup | simpl; unfold batch_size; lia |].
    exists st. split; [done|]. by rewrite Hpool, Hout, Hprog.
  - rewrite Hstream in Hlookup. simpl in Hlookup.
    rewrite loop_eof by exact Hlookup. simpl.
    destruct (statistics_run rnd (start_clock env) (end_clock env) 0)
      as (stats & -> & _).
    by exists stats.
Qed.

(** A run that reaches its end: the frames that the loop' read all carved
    without an exception, and this is the state it ends in. *)
Lemma completed_inv env output_path scale_x scale_y st stats :
  process_video' env output_path scale_x scale_y = Some (Completed st stats) ->
  carved_by rnd cvtColor resize scale_x scale_y (carved scale_x scale_y)
            (streamed (video env)) /\
  pool_calls (pool st) = batches_from [] (streamed (video env)) /\
  vw_frames (out st) = omap (carved scale_x scale_y) (streamed (video env)) /\
  total_processed_frames st = Z.of_nat (length (vw_frames (out st))) /\
  (int (video_frame_count (video env)) = 0 -> streamed (video env) = []).
Proof.
  intros Hrun.
  destruct (Z.eq_dec (int (video_frame_count (video env))) 0) as [Hzero | Hnz].
  - pose proof Hrun as Hinv.
    apply process_video_inv in Hinv as [[_ [=]] | (st0 & _ & _ & Hsetup & _)].
    destruct (run_zero_header env output_path scale_x scale_y st0 Hsetup Hzero)
      as [Habort Hend].
    destruct (streamed (video env)) as [|next rest] eqn:Hstream.
    + destruct (Hend eq_refl) as [stats' Hrun']. rewrite Hrun' in Hrun.
      injection Hrun as <- _.
      apply setup_inv in Hsetup as (? & ? & ? & _ & _ & _ & ->).
      split; [constructor|]. done.
    + destruct Habort as (st' & Hrun' & _); [done|]. congruence.
  - destruct (run_outcome rnd cvtColor resize sched scale_x scale_y env output_path _ st
                Hrun eq_refl Hnz)
      as (done & Hgood & Hout & Htot & _
          & [(stats' & _ & -> & Hpool & _) | (e & ? & ? & [=] & _)]).
    rewrite batches_from_concat in Hgood, Hout. simpl in Hgood, Hout.
    done.
Qed.
Lemma batches_from_head frame rest :
  exists batch batches,
    batches_from [] (frame :: rest) = batch :: batches /\ head batch = Some frame.
Proof.
  rewrite batches_from_cons. simpl app.
  destruct (_ <=? _)%nat; [by eexists _, _|].
  pose proof (batches_from_concat rest [frame]) as Hc.
  pose proof (batches_from_bounds rest [frame]) as Hn.
  destruct (batches_from [frame] rest) as [|batch batches]; [done|].
  exists batch, batches. split; [done|].
  apply Forall_cons in Hn as [Hn _]; [|unfold batch_size; simpl; lia].
  destruct batch as [|b batch]; [simpl in Hn; lia|].
  simpl in Hc. by injection Hc as ->.
Qed.

(** A frame that the probe carved is not skipped by [process_frame]. *)
Lemma probed_frame_result scale_x scale_y frame frame_rgb carved_frame result :
  cvtColor frame COLOR_BGR2RGB = Ok frame_rgb ->
  seam_carve' frame_rgb scale_x scale_y = Ok (Some carved_frame) ->
  process_frame' frame scale_x scale_y = Ok result ->
  exists written, result = Some written.
Proof.
  intros Hrgb Hcarve. unfold process_frame. rewrite Hrgb. simpl. rewrite Hcarve. simpl.
  destruct (cvtColor carved_frame COLOR_RGB2BGR) as [bgr|]; [|done].
  simpl. intros [= <-]. by eexists.
Qed.

(** On a source that seeks, whatever the end of the run: the first batch
    given to the pool starts with the frame that was probed, and the first
    frame written is what [process_frame] returns on it. *)
Lemma probed_frame_first env output_path scale_x scale_y outcome st frame :
  process_video' env output_path scale_x scale_y = Some outcome ->
  final_state outcome = Some st ->
  video_seekable (video env) = true ->
  head (video_frames (video env)) = Some frame ->
  (forall batch, head (pool_calls (pool st)) = Some batch -> head batch = Some frame) /\
  (forall written, head (vw_frames (out st)) = Some written ->
     process_frame' frame scale_x scale_y = Ok (Some written)) /\
  (forall stats, outcome = Completed st stats ->
     exists batch written,
       head (pool_calls (pool st)) = Some batch /\ head batch = Some frame /\
       head (vw_frames (out st)) = Some written /\
       process_frame' frame scale_x scale_y = Ok (Some written)).
Proof.
  intros Hrun Hfinal Hseek Hhead.
  pose proof (streamed_seekable _ Hseek) as Hstream.
  destruct (video_frames (video env)) as [|f frames] eqn:Hframes; [done|].
  injection Hhead as ->.
  pose proof Hrun as Hinv.
  apply process_video_inv in Hinv as [[_ Hnone] | (st0 & _ & _ & Hsetup & _)];
    [congruence|].
  destruct (Z.eq_dec (int (video_frame_count (video env))) 0) as [Hzero | Hnz].
  { destruct (run_zero_header env output_path scale_x scale_y st0 Hsetup Hzero)
      as [Habort _].
    destruct Habort as (st' & Hrun' & _ & Hout & Hpool); [by rewrite Hstream|].
    rewrite Hrun' in Hrun. injection Hrun as <-. injection Hfinal as <-.
    rewrite Hout, Hpool. done. }
  apply setup_inv in Hsetup as (f & frame_rgb & carved_frame & Hf & Hrgb & Hcarve & _).
  rewrite Hframes in Hf. injection Hf as <-.
  destruct (batches_from_head frame frames) as (batch & batches & Hbatches & Hbatch).
  destruct batch as [|b batch]; [done|]. injection Hbatch as ->.
  destruct (run_outcome rnd cvtColor resize sched scale_x scale_y env output_path _ st
              Hrun Hfinal Hnz)
    as (done & Hgood & Hout & _ & _ & Hcase).
  rewrite Hstream, Hbatches in Hcase.
  assert (Hfirst : forall rest, done = (frame :: batch) :: rest ->
            exists written,
              process_frame' frame scale_x scale_y = Ok (Some written) /\
              head (vw_frames (out st)) = Some written).
  { intros rest ->. simpl in Hgood, Hout.
    apply Forall_cons in Hgood as [Hframe _].
    destruct (probed_frame_result _ _ _ _ _ _ Hrgb Hcarve Hframe) as [written Hwritten].
    exists written. split; [by rewrite Hframe, Hwritten|].
    rewrite Hout.
    change (omap ?g (frame :: ?l))
      with (match g frame with Some y => y :: omap g l | None => omap g l end).
    by rewrite Hwritten. }
  destruct Hcase as [(stats & -> & -> & Hpool & _)
                    | (e & failing & fr & -> & Hpool & [later Hpre] & _)].
  - destruct (Hfirst _ eq_refl) as (written & Hframe & Hwritten).
    rewrite Hpool, Hwritten. simpl.
    split; [by intros ? [= <-]|]. split; [by intros ? [= <-]|].
    intros _ _. by exists (frame :: batch), written.
  - rewrite Hpool. split; [|split; [|done]].
    + intros first. destruct done as [|d done'].
      * simpl in *. injection Hpre as <- _. by intros [= <-].
      * simpl in *. injection Hpre as <- _. by intros [= <-].
    + intros written Hwritten. destruct done as [|d done'].
      * rewrite Hout in Hwritten. done.
      * simpl in Hpre. injection Hpre as <- _.
        destruct (Hfirst _ eq_refl) as (written' & Hframe & Hwritten').
        congruence.
Qed.
End CompletedRuns.

(** * The claims of the specification *)

Section Claims.
Variable rnd : Q -> Q.
Variable cvtColor : Image -> ColorConversion -> Res Image.
Variable resize : Image -> Z * Z -> Res (option Image).
Variable sched : nat -> nat -> nat.

Abbreviation process_frame' := (process_frame rnd cvtColor resize).
Abbreviation process_video' := (process_video rnd cvtColor resize sched).
Abbreviation clean := (clean_run rnd cvtColor resize).

Lemma clean_run_completed env output_path scale_x scale_y carved :
  clean scale_x scale_y carved env ->
  exists st stats,
    process_video' env output_path scale_x scale_y = Some (Completed st stats) /\
    pool_calls (pool st) = batches_from [] (streamed (video env)) /\
    vw_frames (out st) = omap carved (streamed (video env)) /\
    total_processed_frames st =
      Z.of_nat (length (omap carved (streamed (video env)))) /\
    progress_file st =
      map (progress_line rnd (int (video_frame_count (video env))))
          (seq (S (cap_pos (entry_capture (video env)))) (length (streamed (video env)))) /\
    cap_pos (cap st) = length (video_frames (video env)) /\
    statistics rnd (start_clock env) (end_clock env) (total_processed_frames st) = Ok stats.
Proof. intros (? & ? & ? & ? & ?). by apply process_video_completed. Qed.

(** On a source that seeks, the loop reads the whole video from its first
    frame. *)
Lemma seekable_stream (v : Video) :
  video_seekable v = true ->
  streamed v = video_frames v /\ cap_pos (entry_capture v) = 0%nat.
Proof.
  intros H. split; [by apply streamed_seekable|]. by rewrite entry_capture_pos, H.
Qed.

(** [int] truncates toward zero. *)
Lemma int_truncates (x : Q) : int x = if Qle_bool 0 x then Qfloor x else Qceiling x.
Proof.
  destruct x as [num den]. unfold int, Qle_bool, Qceiling, Qfloor, Qopp.
  cbn [Qnum Qden]. rewrite Z.mul_0_l, Z.mul_1_r.
  destruct (Z.leb_spec 0 num) as [Hpos | Hneg].
  - apply Z.quot_div_nonneg; lia.
  - rewrite <- (Z.opp_involutive num) at 1. rewrite Z.quot_opp_l by lia.
    f_equal. apply Z.quot_div_nonneg; lia.
Qed.

Lemma append_assoc (a b c : string) : ((a ++ b) ++ c = a ++ b ++ c)%string.
Proof. induction a as [|x a IH]; simpl; [done|]. by rewrite IH. Qed.

Lemma append_empty_r (a : string) : (a ++ "" = a)%string.
Proof. induction a as [|x a IH]; simpl; [done|]. by rewrite IH. Qed.

Lemma file_content_app (f g : File) :
  file_content (f ++ g) = (file_content f ++ file_content g)%string.
Proof.
  induction f as [|chunk f IH]; simpl; [done|]. by rewrite IH, append_assoc.
Qed.

Lemma omap_concat (carved : Image -> option Image) (batches : list (list Image)) :
  omap carved (concat batches) = concat (map (omap carved) batches).
Proof.
  induction batches as [|batch batches IH]; [done|].
  simpl concat. by rewrite omap_app, IH.
Qed.

(** C1. Whatever the order in which the workers complete, when [starmap]
    returns, its result has the length of the batch and holds at every
    position the result of [process_frame] on the frame at that position
    (it is the list that the sequential [process_batch] computes); and it
    does return when no frame makes [process_frame] raise. *)
Theorem starmap_preserves_order (choose : nat -> nat) (batch : list Image)
    (scale_x scale_y : Q) :
  (forall results,
     starmap_frames rnd cvtColor resize choose batch scale_x scale_y = Ok results ->
     length results = length batch /\
     (forall i frame, batch !! i = Some frame ->
        exists result,
          process_frame' frame scale_x scale_y = Ok result /\ results !! i = Some result) /\
     process_batch rnd cvtColor resize batch scale_x scale_y = Ok results) /\
  ((forall frame, frame ∈ batch -> ~ raises (process_frame' frame scale_x scale_y)) ->
   exists results,
     starmap_frames rnd cvtColor resize choose batch scale_x scale_y = Ok results).
Proof.
  unfold starmap_frames. split.
  - intros results Hrun.
    apply pool_starmap_sound in Hrun as [Hlen Hres].
    rewrite length_map in Hlen.
    assert (Hpos : forall i frame, batch !! i = Some frame ->
              exists result, process_frame' frame scale_x scale_y = Ok result /\
                             results !! i = Some result).
    { intros i frame Hi. apply (Hres i (frame, scale_x, scale_y)).
      by rewrite list_lookup_fmap, Hi. }
    split; [done|]. split; [done|].
    apply mapM_Ok. apply Forall2_same_length_lookup. split; [done|].
    intros i frame result Hi Hr.
    destruct (Hpos _ _ Hi) as (result' & Hf & Hr'). congruence.
  - intros Hall. apply pool_starmap_complete.
    apply Forall_fmap, Forall_forall. intros frame Hin. simpl.
    destruct (process_frame' frame scale_x scale_y) as [result|e] eqn:Hf; [eauto|].
    destruct (Hall _ Hin). by exists e.
Qed.

(** C2, amended. The progress file is truncated once, when it is opened;
    every report adds one line at its end, the percentage at that point
    with two decimals and a newline.  After a run that read [T] frames the
    file holds [T] lines, one for every position of the cursor after a
    read, in order; on a source that seeks these are the positions from 1
    to the number of frames of the video. *)
Theorem progress_sink_accumulates :
  (forall total_frames st, total_frames <> 0 ->
     exists st',
       report_progress rnd total_frames st = Some (Ok tt, st') /\
       file_content (progress_file st') =
         (file_content (progress_file st)
          ++ format_2f (percentage rnd total_frames (cap_pos (cap st))) ++ newline)%string) /\
  (forall env output_path scale_x scale_y carved,
     clean scale_x scale_y carved env ->
     exists st stats,
       process_video' env output_path scale_x scale_y = Some (Completed st stats) /\
       progress_file st =
         map (fun pos =>
                (format_2f (percentage rnd (int (video_frame_count (video env))) pos)
                 ++ newline)%string)
             (seq (S (cap_pos (entry_capture (video env))))
                  (length (streamed (video env)))) /\
       (video_seekable (video env) = true ->
        progress_file st =
          map (fun pos =>
                 (format_2f (percentage rnd (int (video_frame_count (video env))) pos)
                  ++ newline)%string)
              (seq 1 (length (video_frames (video env)))))).
Proof.
  split.
  - intros total_frames st Hnz. eexists. split; [by apply report_progress_run|].
    simpl. rewrite file_content_app. simpl. by rewrite append_empty_r.
  - intros env output_path scale_x scale_y carved Hclean.
    destruct (clean_run_completed env output_path _ _ _ Hclean)
      as (st & stats & Hrun & _ & _ & _ & Hprog & _).
    exists st, stats. split; [done|]. split; [done|].
    intros [Hall Hpos]%seekable_stream. by rewrite Hprog, Hall, Hpos.
Qed.

(** C4, amended. For a frame of width [w] (its columns) and height [h]
    (its rows), [seam_carve] computes [new_width = int(w * scale_x)] and
    [new_height = int(h * scale_y)], each product truncated toward zero
    (the floor of a product that is not negative, the ceiling of a negative
    one) and not rounded to the nearest integer, and it gives [resize] the
    pair [(new_height, new_width)]. *)
Theorem seam_carve_truncates (image : Image) (scale_x scale_y : Q) :
  exists new_width new_height : Z,
    new_width = int (fmul rnd (inject_Z (cols image)) scale_x) /\
    new_height = int (fmul rnd (inject_Z (rows image)) scale_y) /\
    new_width =
      (if Qle_bool 0 (fmul rnd (inject_Z (cols image)) scale_x)
       then Qfloor (fmul rnd (inject_Z (cols image)) scale_x)
       else Qceiling (fmul rnd (inject_Z (cols image)) scale_x)) /\
    new_height =
      (if Qle_bool 0 (fmul rnd (inject_Z (rows image)) scale_y)
       then Qfloor (fmul rnd (inject_Z (rows image)) scale_y)
       else Qceiling (fmul rnd (inject_Z (rows image)) scale_y)) /\
    target_size rnd image scale_x scale_y = (new_height, new_width) /\
    seam_carve rnd resize image scale_x scale_y = resize image (new_height, new_width).
Proof.
  eexists _, _. split; [reflexivity|]. split; [reflexivity|].
  split; [apply int_truncates|]. split; [apply int_truncates|].
  split; [reflexivity|].
  unfold seam_carve, target_size, shape. simpl.
  by destruct (resize image _).
Qed.

(** C5, amended. A run that reaches its end reports the progress exactly
    once for every frame that the loop reads: [T] reports for a stream of
    [T] frames, the [k]-th with the percentage at the position of the cursor
    after the [k]-th read (the percentage of [k] frames on a source that
    seeks), while the pool is called once per batch, [T / 32] times and
    once more when [T mod 32] frames are left. *)
Theorem one_report_per_frame env output_path scale_x scale_y carved :
  clean scale_x scale_y carved env ->
  exists st stats,
    process_video' env output_path scale_x scale_y = Some (Completed st stats) /\
    length (progress_file st) = length (streamed (video env)) /\
    (forall k, (k < length (streamed (video env)))%nat ->
       progress_file st !! k
       = Some (progress_line rnd (int (video_frame_count (video env)))
                             (S (cap_pos (entry_capture (video env)) + k)))) /\
    map length (pool_calls (pool st)) = batch_sizes (length (streamed (video env))) /\
    length (pool_calls (pool st)) =
      (length (streamed (video env)) / batch_size
       + if (length (streamed (video env)) mod batch_size =? 0) then 0 else 1)%nat /\
    (video_seekable (video env) = true ->
     streamed (video env) = video_frames (video env) /\
     cap_pos (entry_capture (video env)) = 0%nat).
Proof.
  intros Hclean.
  destruct (clean_run_completed env output_path _ _ _ Hclean)
    as (st & stats & Hrun & Hpool & _ & _ & Hprog & _).
  assert (Hsizes : map length (pool_calls (pool st))
                   = batch_sizes (length (streamed (video env)))).
  { rewrite Hpool. apply (batches_from_sizes _ []). unfold batch_size. simpl. lia. }
  exists st, stats. split; [done|]. split; [|split; [|split; [done|split]]].
  - by rewrite Hprog, length_map, length_seq.
  - intros k Hk. rewrite Hprog. unfold File.
    rewrite list_lookup_fmap, lookup_seq_lt by done. done.
  - rewrite <- (length_map length), Hsizes. unfold batch_sizes.
    rewrite length_app, length_replicate.
    by destruct (_ =? _)%nat.
  - apply seekable_stream.
Qed.

(** C6, amended. When [process_frame] returns [None] for the frame at
    position [k] of the buffer and raises for no frame of the buffer, the
    pool returns [None] at position [k] and the result of every other
    frame at its position, and the driver writes the other results in
    order, counts them, and goes on. *)
Theorem none_result_is_skipped st (k : nat) frame scale_x scale_y carved :
  carved_by rnd cvtColor resize scale_x scale_y carved (frame_buffer st) ->
  frame_buffer st !! k = Some frame ->
  carved frame = None ->
  exists results st',
    starmap_frames rnd cvtColor resize (sched (length (pool_calls (pool st))))
                   (frame_buffer st) scale_x scale_y = Ok results /\
    length results = length (frame_buffer st) /\
    results !! k = Some None /\
    (forall i other, i <> k -> frame_buffer st !! i = Some other ->
       results !! i = Some (carved other)) /\
    process_buffer rnd cvtColor resize sched scale_x scale_y st = Some (Ok tt, st') /\
    vw_frames (out st') =
      vw_frames (out st) ++ omap carved (take k (frame_buffer st))
                         ++ omap carved (drop (S k) (frame_buffer st)) /\
    total_processed_frames st' =
      total_processed_frames st
      + Z.of_nat (length (omap carved (take k (frame_buffer st))
                          ++ omap carved (drop (S k) (frame_buffer st)))).
Proof.
  intros Hgood Hk Hnone.
  exists (map carved (frame_buffer st)). eexists.
  assert (Hsplit : omap carved (frame_buffer st) =
                   omap carved (take k (frame_buffer st))
                   ++ omap carved (drop (S k) (frame_buffer st))).
  { rewrite <- (take_drop_middle _ _ _ Hk) at 1.
    rewrite omap_app. simpl. by rewrite Hnone. }
  split; [by apply starmap_frames_ok|].
  split; [by rewrite length_map|].
  split; [by rewrite list_lookup_fmap, Hk, <- Hnone|].
  split; [intros i other _ Hi; by rewrite list_lookup_fmap, Hi|].
  split; [by apply process_buffer_run|].
  simpl. rewrite Hsplit. split; [done|]. by rewrite <- Hsplit.
Qed.

(** C7. In a run that reaches its end, the batches given to the pool are
    consecutive pieces of the stream of the [T] frames that the loop reads
    (the whole video on a source that seeks), all of 32 frames but the
    last, which holds the [T mod 32] frames that are left when there are
    some; the frames written are, batch after batch, the carved frames of
    the batch, the last batch like the others. *)
Theorem stream_is_batched env output_path scale_x scale_y carved :
  clean scale_x scale_y carved env ->
  exists st stats,
    process_video' env output_path scale_x scale_y = Some (Completed st stats) /\
    concat (pool_calls (pool st)) = streamed (video env) /\
    map length (pool_calls (pool st)) = batch_sizes (length (streamed (video env))) /\
    vw_frames (out st) = concat (map (omap carved) (pool_calls (pool st))) /\
    batch_sizes 100 = [32; 32; 32; 4]%nat /\
    (video_seekable (video env) = true ->
     concat (pool_calls (pool st)) = video_frames (video env) /\
     map length (pool_calls (pool st)) = batch_sizes (length (video_frames (video env)))).
Proof.
  intros Hclean.
  destruct (clean_run_completed env output_path _ _ _ Hclean)
    as (st & stats & Hrun & Hpool & Hout & _).
  exists st, stats. split; [done|].
  assert (Hconcat : concat (pool_calls (pool st)) = streamed (video env)).
  { rewrite Hpool. apply (batches_from_concat _ []). }
  assert (Hsizes : map length (pool_calls (pool st))
                   = batch_sizes (length (streamed (video env)))).
  { rewrite Hpool. apply (batches_from_sizes _ []). unfold batch_size. simpl. lia. }
  split; [done|]. split; [done|]. split; [|split; [done|]].
  - by rewrite <- omap_concat, Hconcat.
  - intros [Hall _]%seekable_stream. by rewrite Hconcat, Hsizes, Hall.
Qed.

(** C9, amended. When the probe of the first frame succeeds, the probe has
    read the first frame and left the cursor behind it, and the loop is
    entered on the capture that was then asked to go back to position 0,
    with nothing written and no batch formed.  On a source that seeks the
    cursor is back at 0 and the next read gives the probed frame again:
    however the run ends, the first batch given to the pool starts with the
    probed frame, and what is written first is what [process_frame] returns
    on it in that batch.  (A source that does not seek stays at position
    1.) *)
Theorem probe_frame_is_reprocessed env output_path scale_x scale_y st0 :
  setup rnd cvtColor resize env output_path scale_x scale_y = inr st0 ->
  exists frame frame_rgb carved_frame,
    (cap_read (open_capture (video env))).1 = Some frame /\
    cap_pos (cap_read (open_capture (video env))).2 = 1%nat /\
    cvtColor frame COLOR_BGR2RGB = Ok frame_rgb /\
    seam_carve rnd resize frame_rgb scale_x scale_y = Ok (Some carved_frame) /\
    cap st0 = (cap_set (cap_read (open_capture (video env))).2 CAP_PROP_POS_FRAMES 0).2 /\
    vw_frames (out st0) = [] /\ pool_calls (pool st0) = [] /\ frame_buffer st0 = [] /\
    (video_seekable (video env) = true ->
     cap_pos (cap st0) = 0%nat /\
     (cap_read (cap st0)).1 = Some frame /\
     forall outcome st,
       process_video' env output_path scale_x scale_y = Some outcome ->
       final_state outcome = Some st ->
       (forall batch, head (pool_calls (pool st)) = Some batch -> head batch = Some frame) /\
       (forall written, head (vw_frames (out st)) = Some written ->
          process_frame' frame scale_x scale_y = Ok (Some written)) /\
       (forall stats, outcome = Completed st stats ->
          exists batch written,
            head (pool_calls (pool st)) = Some batch /\ head batch = Some frame /\
            head (vw_frames (out st)) = Some written /\
            process_frame' frame scale_x scale_y = Ok (Some written))) /\
    (video_seekable (video env) = false ->
     cap_pos (cap st0) = 1%nat /\
     (cap_read (cap st0)).1 = video_frames (video env) !! 1%nat).
Proof.
  intros Hsetup.
  apply setup_inv in Hsetup as (frame & frame_rgb & carved_frame & Hhead & Hrgb & Hcarve & ->).
  exists frame, frame_rgb, carved_frame.
  destruct (video_frames (video env)) as [|f frames] eqn:Hframes; [done|].
  injection Hhead as ->.
  assert (Hread : cap_read (open_capture (video env)) =
                  (Some frame,
                   mkCapture (video_opens (video env)) (video_seekable (video env))
                             (frame :: frames) 1 (video_fps (video env))
                             (video_frame_count (video env)))).
  { unfold cap_read, open_capture. simpl. by rewrite Hframes. }
  rewrite Hread. simpl fst. simpl snd.
  split; [done|]. split; [done|]. split; [done|]. split; [done|].
  split; [unfold entry_capture; by rewrite Hread|].
  split; [done|]. split; [done|]. split; [done|].
  simpl cap. unfold entry_capture. rewrite Hread. simpl snd.
  split; intros Hseek; unfold cap_set, cap_read; simpl; rewrite Hseek; simpl.
  - split; [done|]. split; [done|].
    intros outcome st Hrun Hfinal.
    apply (probed_frame_first rnd cvtColor resize sched env output_path scale_x scale_y
             outcome st frame Hrun Hfinal Hseek).
    by rewrite Hframes.
  - split; [done|]. by destruct (frames !! 0%nat).
Qed.

Lemma setup_early env output_path scale_x scale_y early st stats :
  setup rnd cvtColor resize env output_path scale_x scale_y = inl early ->
  early <> Completed st stats.
Proof.
  unfold setup.
  destruct (negb (path_exists env)); [by intros [= <-]|].
  destruct (negb (isOpened _)); [by intros [= <-]|].
  destruct (cap_read _) as [[frame|] c]; [|by intros [= <-]].
  destruct (_ ≫= _) as [[carved_frame|]|]; [|by intros [= <-]..].
  by destruct (shape carved_frame), (cap_set _ _ _).
Qed.

(** C10. The statistics never divide by zero: the average of frames per
    second is 0 when no time has elapsed, the average of seconds per frame
    is 0 when no frame was written; and at the end of a run the count of
    processed frames is the number of frames that were written to the
    sink. *)
Theorem statistics_never_divide_by_zero :
  (forall start_time end_time processed,
     exists stats,
       statistics rnd start_time end_time processed = Ok stats /\
       ((total_time stats <= 0)%Q -> average_fps stats = 0%Q) /\
       (processed <= 0 -> average_spf stats = 0%Q)) /\
  (forall env output_path scale_x scale_y st stats,
     process_video' env output_path scale_x scale_y = Some (Completed st stats) ->
     total_processed_frames st = Z.of_nat (length (vw_frames (out st))) /\
     statistics rnd (start_clock env) (end_clock env) (total_processed_frames st)
     = Ok stats).
Proof.
  split.
  - intros start_time end_time processed.
    destruct (statistics_run rnd start_time end_time processed)
      as (stats & Hstats & _ & Hfps & Hspf).
    by exists stats.
  - intros env output_path scale_x scale_y st stats. unfold process_video.
    destruct (setup _ _ _ _ _ _ _) as [early|st0] eqn:Hsetup;
      [intros [= ->]; by eapply setup_early in Hsetup|].
    destruct (loop _ _ _ _ _ _ _ _ _) as [[[[]|e] st']|] eqn:Hloop; [|done..].
    destruct (statistics _ _ _ _) as [stats'|e] eqn:Hstats; [|done].
    intros [= <- <-]. split; [|done].
    eapply loop_counted; [|exact Hloop].
    apply setup_inv in Hsetup as (? & ? & ? & _ & _ & _ & ->). done.
Qed.

(** C3: the code raises.  When the header announces zero frames, the
    probe of the first frame succeeds and the loop has a frame to read (as
    it has on every source that seeks), the first report divides by zero:
    the run is aborted by ZeroDivisionError with an empty progress file
    and nothing written. *)
Theorem zero_frame_count_raises env output_path scale_x scale_y st0 :
  setup rnd cvtColor resize env output_path scale_x scale_y = inr st0 ->
  int (video_frame_count (video env)) = 0 ->
  streamed (video env) <> [] ->
  exists st,
    process_video' env output_path scale_x scale_y = Some (Aborted ZeroDivisionError st) /\
    progress_file st = [] /\ vw_frames (out st) = [] /\ pool_calls (pool st) = [].
Proof.
  intros Hsetup Hzero Hstream.
  by apply (run_zero_header rnd cvtColor resize sched env output_path scale_x scale_y st0).
Qed.

Section Rounding.
Hypothesis rnd_monotone : forall x y : Q, (x <= y)%Q -> (rnd x <= rnd y)%Q.
Hypothesis rnd_one : (rnd 1 == 1)%Q.
Hypothesis rnd_hundred : (rnd 100 == 100)%Q.

Lemma rnd_comp (x y : Q) : (x == y)%Q -> (rnd x == rnd y)%Q.
Proof.
  intros E. apply Qle_antisym; apply rnd_monotone; rewrite E; apply Qle_refl.
Qed.

Lemma percentage_monotone (total_frames : Z) (i j : nat) :
  0 < total_frames -> (i <= j)%nat ->
  (percentage rnd total_frames i <= percentage rnd total_frames j)%Q.
Proof.
  intros Htotal Hij. unfold percentage, fmul.
  apply rnd_monotone. apply Qmult_le_compat_r; [|done].
  apply rnd_monotone. unfold Qdiv. apply Qmult_le_compat_r.
  - rewrite <- Zle_Qle. lia.
  - apply Qinv_le_0_compat. change 0%Q with (inject_Z 0). rewrite <- Zle_Qle. lia.
Qed.

Lemma percentage_full (T : nat) :
  (0 < T)%nat -> (percentage rnd (Z.of_nat T) T == 100)%Q.
Proof.
  intros HT. unfold percentage, fmul.
  assert (E : (rnd (inject_Z (Z.of_nat T) / inject_Z (Z.of_nat T)) == 1)%Q).
  { transitivity (rnd 1); [|exact rnd_one]. apply rnd_comp. apply Qmult_inv_r.
    intros E. unfold Qeq in E. simpl in E. lia. }
  transitivity (rnd 100); [|exact rnd_hundred].
  apply rnd_comp. rewrite E. lra.
Qed.

(** C8, amended. In a run that reaches its end under a header that
    announces a positive number of frames, the percentages that are
    reported, and the numbers of hundredths that are printed, never
    decrease; and when the header announces the [T] frames that the video
    decodes to and the loop reads one at least, the last line of the
    progress file is ["100.00"]. *)
Theorem progress_is_monotone env output_path scale_x scale_y carved :
  clean scale_x scale_y carved env ->
  0 < int (video_frame_count (video env)) ->
  exists st stats,
    process_video' env output_path scale_x scale_y = Some (Completed st stats) /\
    progress_file st =
      map (fun pos =>
             (format_2f (percentage rnd (int (video_frame_count (video env))) pos)
              ++ newline)%string)
          (seq (S (cap_pos (entry_capture (video env)))) (length (streamed (video env)))) /\
    (forall i j, (i <= j)%nat ->
       (percentage rnd (int (video_frame_count (video env))) i
        <= percentage rnd (int (video_frame_count (video env))) j)%Q /\
       hundredths (percentage rnd (int (video_frame_count (video env))) i)
       <= hundredths (percentage rnd (int (video_frame_count (video env))) j)) /\
    (int (video_frame_count (video env)) = Z.of_nat (length (video_frames (video env))) ->
     streamed (video env) <> [] ->
     last (progress_file st) = Some ("100.00" ++ newline)%string).
Proof.
  intros Hclean Hcount.
  destruct (clean_run_completed env output_path _ _ _ Hclean)
    as (st & stats & Hrun & _ & _ & _ & Hprog & _).
  exists st, stats. split; [done|]. split; [done|]. split.
  - intros i j Hij.
    assert (Hle : (percentage rnd (int (video_frame_count (video env))) i
                   <= percentage rnd (int (video_frame_count (video env))) j)%Q)
      by (by apply percentage_monotone).
    split; [done|]. by apply hundredths_mono.
  - intros HT Hstream. rewrite Hprog, HT.
    pose proof (streamed_length (video env)) as Hlen.
    induction (streamed (video env)) as [|next rest _] using rev_ind; [done|].
    rewrite length_app in *. simpl length in *.
    rewrite Nat.add_1_r, seq_S, fmap_app, last_app. simpl.
    replace (S (cap_pos (entry_capture (video env)) + length rest))
      with (length (video_frames (video env))) by lia.
    unfold progress_line.
    rewrite (format_2f_comp _ _ (percentage_full (length (video_frames (video env)))
                                   ltac:(lia))).
    done.
Qed.
End Rounding.
End Claims.

(** * The claims on examples *)

Lemma never_raises_carved_by rnd cvtColor resize scale_x scale_y frames :
  never_raises rnd cvtColor resize scale_x scale_y frames = true ->
  carved_by rnd cvtColor resize scale_x scale_y
            (carved_of rnd cvtColor resize scale_x scale_y) frames.
Proof.
  unfold never_raises, carved_by. intros H.
  apply Forall_forall. intros frame Hin.
  rewrite forallb_forall in H. apply list_elem_of_In in Hin.
  specialize (H _ Hin). unfold carved_of.
  by destruct (process_frame _ _ _ _ _ _).
Qed.

Lemma test_run_is_clean (T : nat) (count : Z) :
  (0 < T)%nat -> count <> 0 ->
  clean_run exact swap_cvtColor crop_resize (1 # 2) 1 half_width
            (test_env (test_video T count)).
Proof.
  intros HT Hcount. split; [done|]. split; [done|]. split.
  { simpl. by rewrite int_inject_Z. }
  split.
  - apply never_raises_carved_by. unfold never_raises. apply forallb_forall.
    intros frame Hin. simpl in Hin. apply in_map_iff in Hin as (i & <- & _).
    reflexivity.
  - destruct T as [|T]; [lia|]. by exists (test_frame 1 2 0).
Qed.

(** Three frames, the workers finishing last task first. *)
Lemma starmap_preserves_order_witness :
  exists results,
    starmap_frames exact swap_cvtColor crop_resize (last_first 0)
                   (video_frames (test_video 3 3)) (1 # 2) 1 = Ok results /\
    length results = 3%nat /\
    process_batch exact swap_cvtColor crop_resize (video_frames (test_video 3 3)) (1 # 2) 1
    = Ok results.
Proof.
  destruct (starmap_preserves_order exact swap_cvtColor crop_resize (last_first 0)
              (video_frames (test_video 3 3)) (1 # 2) 1) as [Hsound Hcomplete].
  destruct Hcomplete as [results Hrun].
  { apply Forall_forall. repeat constructor; intros [e He]; discriminate He. }
  exists results. destruct (Hsound results Hrun) as (Hlen & _ & Hbatch).
  split; [exact Hrun|]. split; [exact Hlen | exact Hbatch].
Defined.

Lemma progress_sink_accumulates_witness :
  clean_run exact swap_cvtColor crop_resize (1 # 2) 1 half_width
            (test_env (test_video 3 3)) /\
  exists st stats,
    process_video exact swap_cvtColor crop_resize in_order
                  (test_env (test_video 3 3)) "out.mp4" (1 # 2) 1
    = Some (Completed st stats) /\
    progress_file st =
      map (fun pos => (format_2f (percentage exact 3 pos) ++ newline)%string) (seq 1 3).
Proof.
  assert (Hclean := test_run_is_clean 3 3 ltac:(lia) ltac:(lia)).
  split; [exact Hclean|].
  destruct (proj2 (progress_sink_accumulates exact swap_cvtColor crop_resize in_order)
                  _ "out.mp4" _ _ _ Hclean) as (st & stats & Hrun & _ & Hseek).
  exists st, stats. split; [exact Hrun | exact (Hseek eq_refl)].
Defined.

(** Forty frames: forty reports, two batches. *)
Lemma one_report_per_frame_witness :
  clean_run exact swap_cvtColor crop_resize (1 # 2) 1 half_width
            (test_env (test_video 40 40)) /\
  exists st stats,
    process_video exact swap_cvtColor crop_resize in_order
                  (test_env (test_video 40 40)) "out.mp4" (1 # 2) 1
    = Some (Completed st stats) /\
    length (progress_file st) = 40%nat /\
    map length (pool_calls (pool st)) = [32; 8]%nat.
Proof.
  assert (Hclean := test_run_is_clean 40 40 ltac:(lia) ltac:(lia)).
  split; [exact Hclean|].
  destruct (one_report_per_frame exact swap_cvtColor crop_resize in_order
              _ "out.mp4" _ _ _ Hclean) as (st & stats & Hrun & Hlen & _ & Hsizes & _).
  exists st, stats. split; [exact Hrun|]. split; [exact Hlen | exact Hsizes].
Defined.

(** A buffer whose second frame is too narrow to be carved. *)
Lemma none_result_is_skipped_witness :
  half_width narrow_frame = None /\
  exists results st',
    starmap_frames exact swap_cvtColor crop_resize (last_first 0) narrow_buffer (1 # 2) 1
    = Ok results /\
    results !! 1%nat = Some None /\
    process_buffer exact swap_cvtColor crop_resize last_first (1 # 2) 1 narrow_state
    = Some (Ok tt, st') /\
    vw_frames (out st')
    = omap half_width [test_frame 1 2 0] ++ omap half_width [test_frame 1 2 6].
Proof.
  assert (Hnone : half_width narrow_frame = None) by reflexivity.
  split; [exact Hnone|].
  destruct (none_result_is_skipped exact swap_cvtColor crop_resize last_first narrow_state 1
              narrow_frame (1 # 2) 1 half_width)
    as (results & st' & Hpool & _ & Hk & _ & Hrun & Hout & _).
  - apply never_raises_carved_by. reflexivity.
  - reflexivity.
  - exact Hnone.
  - exists results, st'. split; [exact Hpool|]. split; [exact Hk|].
    split; [exact Hrun | exact Hout].
Defined.

(** A hundred frames: three batches of 32 and one of 4. *)
Lemma stream_is_batched_witness :
  clean_run exact swap_cvtColor crop_resize (1 # 2) 1 half_width
            (test_env (test_video 100 100)) /\
  exists st stats,
    process_video exact swap_cvtColor crop_resize last_first
                  (test_env (test_video 100 100)) "out.mp4" (1 # 2) 1
    = Some (Completed st stats) /\
    map length (pool_calls (pool st)) = [32; 32; 32; 4]%nat.
Proof.
  assert (Hclean := test_run_is_clean 100 100 ltac:(lia) ltac:(lia)).
  split; [exact Hclean|].
  destruct (stream_is_batched exact swap_cvtColor crop_resize last_first
              _ "out.mp4" _ _ _ Hclean) as (st & stats & Hrun & _ & Hsizes & _ & H100 & _).
  exists st, stats. split; [exact Hrun|].
  rewrite Hsizes. exact H100.
Defined.

Lemma progress_is_monotone_witness :
  clean_run exact swap_cvtColor crop_resize (1 # 2) 1 half_width
            (test_env (test_video 3 3)) /\
  0 < int (video_frame_count (test_video 3 3)) /\
  exists st stats,
    process_video exact swap_cvtColor crop_resize in_order
                  (test_env (test_video 3 3)) "out.mp4" (1 # 2) 1
    = Some (Completed st stats) /\
    last (progress_file st) = Some ("100.00" ++ newline)%string.
Proof.
  assert (Hclean := test_run_is_clean 3 3 ltac:(lia) ltac:(lia)).
  split; [exact Hclean|].
  split; [reflexivity|].
  destruct (progress_is_monotone exact swap_cvtColor crop_resize in_order
              exact_mono (exact_eq 1) (exact_eq 100)
              _ "out.mp4" _ _ _ Hclean eq_refl) as (st & stats & Hrun & _ & _ & Hlast).
  exists st, stats. split; [exact Hrun|].
  apply Hlast; [reflexivity | discriminate].
Defined.

(** Three frames on a source that seeks: the frame that was probed is read
    again, and its result is the first frame written. *)
Lemma probe_frame_is_reprocessed_witness :
  exists st0 st stats,
    setup exact swap_cvtColor crop_resize (test_env (test_video 3 3)) "out.mp4" (1 # 2) 1
    = inr st0 /\
    cap_pos (cap st0) = 0%nat /\
    (cap_read (cap st0)).1 = Some (test_frame 1 2 0) /\
    process_video exact swap_cvtColor crop_resize in_order
                  (test_env (test_video 3 3)) "out.mp4" (1 # 2) 1
    = Some (Completed st stats) /\
    exists batch written,
      head (pool_calls (pool st)) = Some batch /\
      head batch = Some (test_frame 1 2 0) /\
      head (vw_frames (out st)) = Some written /\
      process_frame exact swap_cvtColor crop_resize (test_frame 1 2 0) (1 # 2) 1
      = Ok (Some written).
Proof.
  assert (exists st stats,
            process_video exact swap_cvtColor crop_resize in_order
                          (test_env (test_video 3 3)) "out.mp4" (1 # 2) 1
            = Some (Completed st stats)) as (st & stats & Hrun)
    by (eexists _, _; vm_compute; reflexivity).
  eexists _, st, stats. split; [vm_compute; reflexivity|].
  edestruct (probe_frame_is_reprocessed exact swap_cvtColor crop_resize in_order
               (test_env (test_video 3 3)) "out.mp4" (1 # 2) 1)
    as (frame & frame_rgb & carved_frame & Hread & _ & _ & _ & _ & _ & _ & _ & Hseek & _);
    [vm_compute; reflexivity|].
  injection Hread as <-.
  destruct (Hseek eq_refl) as (Hpos & Hnext & Hfirst).
  split; [exact Hpos|]. split; [exact Hnext|]. split; [exact Hrun|].
  exact (proj2 (proj2 (Hfirst (Completed st stats) st Hrun eq_refl)) stats eq_refl).
Defined.

Lemma statistics_never_divide_by_zero_witness :
  exists st stats,
    process_video exact swap_cvtColor crop_resize in_order
                  (test_env (test_video 3 3)) "out.mp4" (1 # 2) 1
    = Some (Completed st stats) /\
    total_processed_frames st = Z.of_nat (length (vw_frames (out st))).
Proof.
  destruct (statistics_never_divide_by_zero exact swap_cvtColor crop_resize in_order)
    as [_ Hcount].
  eexists _, _. split; [vm_compute; reflexivity|].
  refine (proj1 (Hcount (test_env (test_video 3 3)) "out.mp4" (1 # 2)%Q 1%Q _ _ _)).
  vm_compute. reflexivity.
Defined.

(** The failing input of C3: three frames under a header that announces
    none. *)
Lemma zero_frame_count_raises_witness :
  int (video_frame_count (test_video 3 0)) = 0 /\
  streamed (test_video 3 0) <> [] /\
  exists st,
    process_video exact swap_cvtColor crop_resize in_order
                  (test_env (test_video 3 0)) "out.mp4" (1 # 2) 1
    = Some (Aborted ZeroDivisionError st) /\
    progress_file st = [] /\ vw_frames (out st) = [] /\ pool_calls (pool st) = [].
Proof.
  split; [reflexivity|]. split; [discriminate|].
  eapply (zero_frame_count_raises exact swap_cvtColor crop_resize in_order
            (test_env (test_video 3 0)) "out.mp4" (1 # 2) 1).
  - vm_compute. reflexivity.
  - reflexivity.
  - discriminate.
Defined.

(** The example of the specification: for a frame 640 wide and 480 high at
    scales 0.5 and 1.0, [new_width] is 320 and [new_height] is 480; [resize]
    is given the pair (480, 320), which the library reads as a width of 480
    and a height of 320.  An empty video under a header that announces no
    frame ends at the probe of the first frame. *)
Example target_size_640_480 :
  target_size exact (mkImage 480 640 []) (1 # 2) 1 = (480, 320) /\
  size_width (target_size exact (mkImage 480 640 []) (1 # 2) 1) = 480 /\
  size_height (target_size exact (mkImage 480 640 []) (1 # 2) 1) = 320 /\
  exists carved_frame,
    seam_carve exact crop_resize (mkImage 480 640 []) (1 # 2) 1 = Ok (Some carved_frame) /\
    shape carved_frame = (320, 480).
Proof.
  split; [reflexivity|]. split; [reflexivity|]. split; [reflexivity|].
  eexists. split; [vm_compute; reflexivity | reflexivity].
Qed.

Example empty_video_ends_at_probe :
  process_video exact swap_cvtColor crop_resize in_order
                (test_env (test_video 0 0)) "out.mp4" (1 # 2) 1
  = Some NoFirstFrame.
Proof. reflexivity. Qed.

(** Statistics of a run in which no time elapsed and nothing was written. *)
Example statistics_of_nothing :
  statistics exact 10 10 0 = Ok (mkStatistics 0 0 0).
Proof. reflexivity. Qed.

(** ** Where the specification and the program part *)

(** C2 fails: after the second report of a run on two frames the progress
    file holds two lines, the earlier report before the current one. *)
Lemma progress_sink_keeps_history :
  exists st stats,
    process_video exact swap_cvtColor crop_resize in_order
                  (test_env (test_video 2 2)) "out.mp4" (1 # 2) 1
    = Some (Completed st stats) /\
    file_content (progress_file st)
    = ("50.00" ++ newline ++ "100.00" ++ newline)%string /\
    file_content (progress_file st) <> ("100.00" ++ newline)%string.
Proof.
  eexists _, _. split; [vm_compute; reflexivity|]. split; [reflexivity|]. discriminate.
Qed.

(** C4 fails: for a frame 3 columns wide at [scale_x = 0.5], [new_width]
    is [int(1.5) = 1], while [round(1.5)] is 2.  (1.5 is a float, so the
    product is exact.) *)
Lemma target_size_not_rounded :
  target_size exact wide_frame (1 # 2) 1 = (1, 1) /\
  (round (inject_Z (rows wide_frame) * 1), round (inject_Z (cols wide_frame) * (1 # 2)))
  = (1, 2) /\
  target_size exact wide_frame (1 # 2) 1
  <> (round (inject_Z (rows wide_frame) * 1), round (inject_Z (cols wide_frame) * (1 # 2))).
Proof. split; [reflexivity|]. split; [reflexivity|]. discriminate. Qed.

(** C5 fails: a run on three frames reports three times, once after each
    frame it reads and before any batch is complete, although the pool is
    called once; one report per batch boundary and one after the probe
    would be two. *)
Lemma reports_are_per_frame :
  exists st stats,
    process_video exact swap_cvtColor crop_resize in_order
                  (test_env (test_video 3 3)) "out.mp4" (1 # 2) 1
    = Some (Completed st stats) /\
    length (progress_file st) = 3%nat /\
    length (pool_calls (pool st)) = 1%nat /\
    length (progress_file st) <> S (length (pool_calls (pool st))) /\
    length (progress_file st) <> length (pool_calls (pool st)).
Proof.
  eexists _, _. split; [vm_compute; reflexivity|].
  repeat split; try reflexivity; discriminate.
Qed.

(** C8 fails: the percentages are computed from the frame count of the
    header, which is not the number of frames the video decodes to.  Three
    frames under a header that announces two end at 150.00 once all frames
    are consumed, and under a header that announces -3 the percentages
    decrease. *)
Lemma progress_follows_the_header :
  (exists st stats,
     process_video exact swap_cvtColor crop_resize in_order
                   (test_env (test_video 3 2)) "out.mp4" (1 # 2) 1
     = Some (Completed st stats) /\
     cap_pos (cap st) = length (video_frames (test_video 3 2)) /\
     file_content (progress_file st)
     = ("50.00" ++ newline ++ "100.00" ++ newline ++ "150.00" ++ newline)%string /\
     last (progress_file st) <> Some ("100.00" ++ newline)%string) /\
  (exists st stats,
     process_video exact swap_cvtColor crop_resize in_order
                   (test_env (test_video 3 (-3))) "out.mp4" (1 # 2) 1
     = Some (Completed st stats) /\
     file_content (progress_file st)
     = ("-33.33" ++ newline ++ "-66.67" ++ newline ++ "-100.00" ++ newline)%string /\
     (percentage exact (-3) 2 < percentage exact (-3) 1)%Q).
Proof.
  split.
  - eexists _, _. split; [vm_compute; reflexivity|]. split; [reflexivity|].
    split; [reflexivity | discriminate].
  - eexists _, _. split; [vm_compute; reflexivity|]. split; reflexivity.
Qed.

(** C9 fails on a source that does not seek: the cursor stays behind the
    frame that was probed, the loop starts with the second frame, and the
    probed frame is in no batch; two frames of the three are written. *)
Lemma probed_frame_is_not_read_again :
  exists st0 st stats,
    setup exact swap_cvtColor crop_resize (test_env (unseekable_video 3 3)) "out.mp4" (1 # 2) 1
    = inr st0 /\
    cap_pos (cap st0) = 1%nat /\
    (cap_read (cap st0)).1 = Some (test_frame 1 2 1) /\
    process_video exact swap_cvtColor crop_resize in_order
                  (test_env (unseekable_video 3 3)) "out.mp4" (1 # 2) 1
    = Some (Completed st stats) /\
    pool_calls (pool st) = [[test_frame 1 2 1; test_frame 1 2 2]] /\
    (test_frame 1 2 0 ∉ concat (pool_calls (pool st))) /\
    vw_frames (out st) = omap half_width [test_frame 1 2 1; test_frame 1 2 2].
Proof.
  eexists _, _, _. split; [vm_compute; reflexivity|].
  split; [reflexivity|]. split; [reflexivity|].
  split; [vm_compute; reflexivity|]. split; [reflexivity|].
  split; [|reflexivity].
  simpl. intros [H|[H|H]%elem_of_cons]%elem_of_cons; [discriminate..|].
  by apply elem_of_nil in H.
Qed.

(** C6 fails: when [process_frame] raises on one frame of a batch, the call
    of [starmap] raises, whatever the order in which the workers complete,
    and the run is aborted before the results of the other frames are
    written. *)
Lemma raising_frame_aborts_run :
  raises (process_frame exact swap_cvtColor crop_resize corrupt_frame (1 # 2) 1) /\
  (forall choose,
     ~ exists results,
         starmap_frames exact swap_cvtColor crop_resize choose corrupt_batch (1 # 2) 1
         = Ok results) /\
  exists st,
    process_video exact swap_cvtColor crop_resize in_order
                  (test_env corrupt_video) "out.mp4" (1 # 2) 1
    = Some (Aborted (Error "cvtColor: empty image") st) /\
    vw_frames (out st) = [].
Proof.
  assert (Hraises : raises (process_frame exact swap_cvtColor crop_resize
                                          corrupt_frame (1 # 2) 1))
    by (by eexists).
  split; [exact Hraises|]. split.
  - intros choose [results Hrun].
    destruct (pool_starmap_raises
                (fun '(frame, scale_x, scale_y) =>
                   process_frame exact swap_cvtColor crop_resize frame scale_x scale_y)
                (map (fun f => (f, 1 # 2, 1)%Q) corrupt_batch) choose
                (corrupt_frame, 1 # 2, 1)%Q) as [e He].
    + apply list_elem_of_fmap. exists corrupt_frame. split; [done|].
      apply list_elem_of_lookup. by exists 1%nat.
    + exact Hraises.
    + unfold starmap_frames in Hrun. congruence.
  - eexists. split; [vm_compute; reflexivity | reflexivity].
Qed.

(** * Further properties of the program *)

(** ** The properties *)

Section FurtherProperties.
Variable rnd : Q -> Q.
Variable cvtColor : Image -> ColorConversion -> Res Image.
Variable resize : Image -> Z * Z -> Res (option Image).
Variable sched : nat -> nat -> nat.

Abbreviation process_frame' := (process_frame rnd cvtColor resize).
Abbreviation seam_carve' := (seam_carve rnd resize).
Abbreviation process_batch' := (process_batch rnd cvtColor resize).
Abbreviation starmap_frames' := (starmap_frames rnd cvtColor resize).
Abbreviation loop' := (loop rnd cvtColor resize sched).
Abbreviation setup' := (setup rnd cvtColor resize).
Abbreviation process_video' := (process_video rnd cvtColor resize sched).
Abbreviation carved := (carved_of rnd cvtColor resize).

(** X1. [process_video] ends on every video: the loop reads each frame
    once and stops at the first read that fails, so that one iteration more
    than there are frames is enough, and allowing more iterations changes
    nothing. *)
Theorem loop_bound_is_enough env output_path scale_x scale_y :
  (exists outcome, process_video' env output_path scale_x scale_y = Some outcome) /\
  (forall st0 fuel,
     setup' env output_path scale_x scale_y = inr st0 ->
     (length (video_frames (video env)) < fuel)%nat ->
     loop' fuel scale_x scale_y (int (video_frame_count (video env))) st0
     = loop' (S (length (video_frames (video env)))) scale_x scale_y
             (int (video_frame_count (video env))) st0).
Proof.
  split; [apply process_video_terminates|].
  intros st0 fuel Hsetup Hfuel.
  apply setup_inv in Hsetup as (? & ? & ? & _ & _ & _ & ->).
  eapply loop_fuel; [reflexivity|..]; simpl; rewrite entry_capture_frames; lia.
Qed.

(** X2. The three returns before the first frame is carved: the run ends
    at line 46 exactly when the input file does not exist, at line 51
    exactly when it exists and the capture does not open, and at line 59
    exactly when the capture opens on a video without any frame. *)
Theorem early_returns env output_path scale_x scale_y :
  (process_video rnd cvtColor resize sched env output_path scale_x scale_y = Some NotFound
   <-> path_exists env = false) /\
  (process_video rnd cvtColor resize sched env output_path scale_x scale_y = Some CannotOpen
   <-> path_exists env = true /\ video_opens (video env) = false) /\
  (process_video rnd cvtColor resize sched env output_path scale_x scale_y = Some NoFirstFrame
   <-> path_exists env = true /\ video_opens (video env) = true /\
       video_frames (video env) = []).
Proof.
  assert (Hearly : forall outcome, final_state outcome = None ->
            (process_video' env output_path scale_x scale_y = Some outcome
             <-> setup' env output_path scale_x scale_y = inl outcome)).
  { intros outcome Hnone. split.
    - intros Hrun. apply process_video_inv in Hrun as [[? _] | (? & ? & ? & _ & _ & ? & _)];
        [done | congruence].
    - intros Hsetup. unfold process_video. by rewrite Hsetup. }
  rewrite !Hearly by done. unfold setup, isOpened, open_capture, cap_read. simpl.
  clear Hearly.
  destruct (path_exists env), (video_opens (video env)); simpl;
    try (intuition congruence).
  destruct (video_frames (video env)) as [|frame frames]; simpl; [intuition congruence|].
  destruct (_ ≫= _) as [[carved_frame|]|];
    [destruct (shape carved_frame), (video_seekable (video env))|..];
    intuition congruence.
Qed.

(** X3. The probe of the first frame (lines 61-66): the run returns
    without opening the sink exactly when carving the first frame gives
    [None], and ends with an exception exactly when the conversion of the
    first frame or its carving raises it.  The conversion back to BGR is
    not part of the probe. *)
Theorem probe_failures env output_path scale_x scale_y :
  (process_video rnd cvtColor resize sched env output_path scale_x scale_y = Some FirstFrameFailed
   <-> path_exists env = true /\ video_opens (video env) = true /\
       exists frame frame_rgb,
         head (video_frames (video env)) = Some frame /\
         cvtColor frame COLOR_BGR2RGB = Ok frame_rgb /\
         seam_carve' frame_rgb scale_x scale_y = Ok None) /\
  (forall e,
     process_video rnd cvtColor resize sched env output_path scale_x scale_y = Some (ProbeRaised e)
     <-> path_exists env = true /\ video_opens (video env) = true /\
         exists frame,
           head (video_frames (video env)) = Some frame /\
           (cvtColor frame COLOR_BGR2RGB = Raise e \/
            exists frame_rgb,
              cvtColor frame COLOR_BGR2RGB = Ok frame_rgb /\
              seam_carve' frame_rgb scale_x scale_y = Raise e)).
Proof.
  assert (Hearly : forall outcome, final_state outcome = None ->
            (process_video' env output_path scale_x scale_y = Some outcome
             <-> setup' env output_path scale_x scale_y = inl outcome)).
  { intros outcome Hnone. split.
    - intros Hrun. apply process_video_inv in Hrun as [[? _] | (? & ? & ? & _ & _ & ? & _)];
        [done | congruence].
    - intros Hsetup. unfold process_video. by rewrite Hsetup. }
  split; [|intros e]; rewrite Hearly by done;
    unfold setup, isOpened, open_capture, cap_read; simpl;
    (destruct (path_exists env); simpl; [|split; [done | by intros []]]);
    (destruct (video_opens (video env)); simpl; [|split; [done | by intros (_ & [=] & _)]]);
    (destruct (video_frames (video env)) as [|frame frames]; simpl;
       [split; [done | by intros (_ & _ & ? & ? & [=] & _) || by intros (_ & _ & ? & [=] & _)]|]).
  - unfold mbind, Res_bind.
    destruct (cvtColor frame COLOR_BGR2RGB) as [frame_rgb|e] eqn:Hrgb.
    + destruct (seam_carve' frame_rgb scale_x scale_y) as [[carved_frame|]|e] eqn:Hcarve.
      * split; [by destruct (video_seekable (video env))|].
        intros (_ & _ & f & rgb & [= <-] & Hf & Hc). congruence.
      * split; [|done]. intros _. split; [done|]. split; [done|]. by exists frame, frame_rgb.
      * split; [done|]. intros (_ & _ & f & rgb & [= <-] & Hf & Hc). congruence.
    + split; [done|]. intros (_ & _ & f & rgb & [= <-] & Hf & Hc). congruence.
  - unfold mbind, Res_bind.
    destruct (cvtColor frame COLOR_BGR2RGB) as [frame_rgb|e'] eqn:Hrgb.
    + destruct (seam_carve' frame_rgb scale_x scale_y) as [[carved_frame|]|e'] eqn:Hcarve.
      * split; [by destruct (video_seekable (video env))|].
        intros (_ & _ & f & [= <-] & [Hf | (rgb & Hf & Hc)]); congruence.
      * split; [done|].
        intros (_ & _ & f & [= <-] & [Hf | (rgb & Hf & Hc)]); congruence.
      * split.
        -- intros [= ->]. split; [done|]. split; [done|]. exists frame.
           split; [done|]. right. by exists frame_rgb.
        -- intros (_ & _ & f & [= <-] & [Hf | (rgb & Hf & Hc)]); congruence.
    + split.
      * intros [= ->]. split; [done|]. split; [done|]. exists frame. split; [done|]. by left.
      * intros (_ & _ & f & [= <-] & [Hf | (rgb & Hf & Hc)]); congruence.
Qed.

(** X4. Whenever the loop was entered, the sink of the state in which the
    run ends, completed or aborted, still has the parameters it was opened
    with at line 77: the joined path, the code "mp4v", the frame rate of the
    header truncated to an integer, and as size the columns and rows of the
    frame that carving the first frame returned. *)
Theorem sink_parameters env output_path scale_x scale_y outcome st :
  process_video' env output_path scale_x scale_y = Some outcome ->
  final_state outcome = Some st ->
  exists frame frame_rgb carved_frame,
    head (video_frames (video env)) = Some frame /\
    cvtColor frame COLOR_BGR2RGB = Ok frame_rgb /\
    seam_carve' frame_rgb scale_x scale_y = Ok (Some carved_frame) /\
    vw_size (out st) = (cols carved_frame, rows carved_frame) /\
    vw_fps (out st) = int (video_fps (video env)) /\
    vw_fourcc (out st) = "mp4v" /\
    vw_path (out st) = path_join (getcwd env) output_path.
Proof.
  intros Hrun Hfinal.
  apply process_video_inv in Hrun
    as [[_ Hnone] | (st0 & r & st1 & Hsetup & Hloop & Hst & _)]; [congruence|].
  assert (st1 = st) as -> by congruence.
  apply setup_inv in Hsetup as (frame & frame_rgb & carved_frame & Hhead & Hrgb & Hcarve & ->).
  apply loop_grows in Hloop as [_ _ Hpath Hfourcc Hfps Hsize _ _ _ _].
  exists frame, frame_rgb, carved_frame.
  split; [done|]. split; [done|]. split; [done|].
  by rewrite Hpath, Hfourcc, Hfps, Hsize.
Qed.

(** X5. A run that is aborted under a header that does not announce zero
    frames stopped in the call of [starmap] on some batch, with the
    exception that [process_frame] raises on a frame of that batch.  The
    batches given to the pool, the failing one last, are the first batches
    of the stream that the loop reads (the whole video on a source that
    seeks); the sink holds the carved frames of the batches before the
    failing one and nothing of it, the counter is their number, and the
    progress file holds the first reports of the run. *)
Theorem exception_stops_at_failing_batch env output_path scale_x scale_y e st :
  process_video' env output_path scale_x scale_y = Some (Aborted e st) ->
  int (video_frame_count (video env)) <> 0 ->
  exists done failing frame,
    pool_calls (pool st) = done ++ [failing] /\
    concat (done ++ [failing]) `prefix_of` streamed (video env) /\
    frame ∈ failing /\
    process_frame' frame scale_x scale_y = Raise e /\
    carved_by rnd cvtColor resize scale_x scale_y (carved scale_x scale_y) (concat done) /\
    vw_frames (out st) = omap (carved scale_x scale_y) (concat done) /\
    total_processed_frames st = Z.of_nat (length (vw_frames (out st))) /\
    progress_file st `prefix_of`
      map (progress_line rnd (int (video_frame_count (video env))))
          (seq (S (cap_pos (entry_capture (video env)))) (length (streamed (video env)))) /\
    (video_seekable (video env) = true ->
     concat (done ++ [failing]) `prefix_of` video_frames (video env) /\
     progress_file st `prefix_of`
       map (progress_line rnd (int (video_frame_count (video env))))
           (seq 1 (length (video_frames (video env))))).
Proof.
  intros Hrun Hnz.
  destruct (run_outcome rnd cvtColor resize sched scale_x scale_y env output_path _ st
              Hrun eq_refl Hnz)
    as (done & Hgood & Hout & Htot & Hprog
        & [(stats & [=] & _) | (e' & failing & frame & [= <-] & Hpool & Hpre & Hin & Hraise)]).
  exists done, failing, frame.
  assert (Hstream : concat (done ++ [failing]) `prefix_of` streamed (video env)).
  { destruct Hpre as [later Hpre].
    exists (concat later).
    pose proof (batches_from_concat (streamed (video env)) []) as Hc.
    rewrite Hpre, concat_app in Hc. done. }
  split; [done|]. split; [done|]. split; [done|]. split; [done|]. split; [done|].
  split; [done|]. split; [done|]. split; [done|].
  intros Hseek. pose proof (entry_capture_pos (video env)) as Hpos.
  rewrite Hseek in Hpos.
  rewrite (streamed_seekable _ Hseek) in *. rewrite Hpos in Hprog. done.
Qed.

(** X7. A run that reaches its end has written the results of
    [process_frame] that are not [None] on the frames that the loop read,
    in the order of the stream, and counted them.  On a source that seeks
    these are the frames of the whole video: one frame at least is written,
    the result of the first frame first.  On a source that does not seek
    the first frame of the video is left out. *)
Theorem completed_run_output env output_path scale_x scale_y st stats :
  process_video rnd cvtColor resize sched env output_path scale_x scale_y = Some (Completed st stats) ->
  vw_frames (out st) = omap (carved scale_x scale_y) (streamed (video env)) /\
  0 <= total_processed_frames st <= Z.of_nat (length (streamed (video env))) /\
  (video_seekable (video env) = true ->
   vw_frames (out st) = omap (carved scale_x scale_y) (video_frames (video env)) /\
   (exists frame written,
      head (video_frames (video env)) = Some frame /\
      process_frame' frame scale_x scale_y = Ok (Some written) /\
      head (vw_frames (out st)) = Some written) /\
   1 <= total_processed_frames st <= Z.of_nat (length (video_frames (video env)))) /\
  (video_seekable (video env) = false ->
   vw_frames (out st) = omap (carved scale_x scale_y) (drop 1 (video_frames (video env))) /\
   total_processed_frames st < Z.of_nat (length (video_frames (video env)))).
Proof.
  intros Hrun.
  pose proof Hrun as Hinv.
  apply completed_inv in Hinv as (_ & _ & Hout & Htot & _).
  assert (Hlen : (length (vw_frames (out st)) <= length (streamed (video env)))%nat)
    by (rewrite Hout; apply omap_length_le).
  split; [done|]. split; [lia|].
  pose proof Hrun as Hsetup.
  apply process_video_inv in Hsetup as [[_ [=]] | (st0 & _ & _ & Hsetup & _)].
  apply setup_inv in Hsetup as (frame & _ & _ & Hhead & _).
  split; intros Hseek.
  - rewrite (streamed_seekable _ Hseek) in *. split; [done|].
    destruct (probed_frame_first rnd cvtColor resize sched env output_path scale_x scale_y
                _ st frame Hrun eq_refl Hseek Hhead) as (_ & _ & Hfirst).
    destruct (Hfirst stats eq_refl) as (batch & written & _ & _ & Hwritten & Hframe).
    split; [by exists frame, written|].
    destruct (vw_frames (out st)); [done|]. simpl length in *. lia.
  - rewrite (streamed_unseekable _ Hseek) in *. split; [done|].
    rewrite length_drop in Hlen.
    destruct (video_frames (video env)); [done|]. simpl length in *. lia.
Qed.

(** X8. Whatever the order in which the workers complete, [starmap] raises
    exactly when [process_frame] raises on a frame of the buffer, and the
    exception it raises is the one of such a frame. *)
Theorem starmap_raises_iff_frame_raises (choose : nat -> nat) (buffer : list Image)
    scale_x scale_y :
  (raises (starmap_frames' choose buffer scale_x scale_y)
   <-> exists frame, frame ∈ buffer /\ raises (process_frame' frame scale_x scale_y)) /\
  (forall e, starmap_frames' choose buffer scale_x scale_y = Raise e ->
     exists frame, frame ∈ buffer /\ process_frame' frame scale_x scale_y = Raise e).
Proof.
  split; [split|].
  - intros [e He]. apply starmap_frames_Raise_inv in He as (frame & Hin & Hraise).
    exists frame. split; [done|]. by exists e.
  - intros (frame & Hin & Hraise). unfold starmap_frames.
    apply (pool_starmap_raises _ _ _ (frame, scale_x, scale_y)); [|done].
    apply list_elem_of_fmap. by exists frame.
  - intros e He. by apply starmap_frames_Raise_inv in He.
Qed.

(** X9. The sequential [process_batch] raises exactly when some frame makes
    [process_frame] raise, and then raises the exception of the first such
    frame of the list. *)
Theorem process_batch_first_failure (frames : list Image) scale_x scale_y e :
  process_batch' frames scale_x scale_y = Raise e <->
  exists before frame after,
    frames = before ++ frame :: after /\
    Forall (fun f => ~ raises (process_frame' f scale_x scale_y)) before /\
    process_frame' frame scale_x scale_y = Raise e.
Proof.
  unfold process_batch. rewrite mapM_Raise.
  split; intros (before & frame & after & -> & Hall & Hraise);
    exists before, frame, after; (split; [done|]); (split; [|done]);
    (eapply Forall_impl; [exact Hall|]); simpl; intros f.
  - intros [r Hr] [e' He']. congruence.
  - intros Hf. destruct (process_frame' f scale_x scale_y) as [r|e'] eqn:Hr; [by exists r|].
    destruct Hf. by exists e'.
Qed.

(** X10. [process_batch] on two lists of frames one after the other: the
    results of the first list followed by those of the second, and the
    exception of the first list rather than one of the second. *)
Theorem process_batch_app (frames1 frames2 : list Image) scale_x scale_y :
  process_batch' (frames1 ++ frames2) scale_x scale_y =
  match process_batch' frames1 scale_x scale_y with
  | Raise e => Raise e
  | Ok results1 =>
      match process_batch' frames2 scale_x scale_y with
      | Raise e => Raise e
      | Ok results2 => Ok (results1 ++ results2)
      end
  end.
Proof. unfold process_batch. by rewrite mapM_app. Qed.

(** X11. The pool and the sequential [process_batch] return the same
    results: each of them returns a list exactly when the other returns it,
    whatever the order in which the workers complete. *)
Theorem starmap_agrees_with_process_batch (choose : nat -> nat) (buffer : list Image)
    scale_x scale_y results :
  starmap_frames' choose buffer scale_x scale_y = Ok results
  <-> process_batch' buffer scale_x scale_y = Ok results.
Proof.
  split.
  - intros Hrun. apply starmap_frames_Ok_inv in Hrun as [Hgood ->].
    apply mapM_Ok. apply Forall2_fmap_r, Forall_Forall2_diag. exact Hgood.
  - intros Hrun. apply mapM_Ok in Hrun.
    assert (Hgood : carved_by rnd cvtColor resize scale_x scale_y
                              (carved scale_x scale_y) buffer /\
                    results = map (carved scale_x scale_y) buffer).
    { induction Hrun as [|frame result buffer' results' Hf _ [IH1 IH2]].
      - split; [constructor | done].
      - split.
        + constructor; [|done]. unfold carved_of. by rewrite Hf.
        + simpl. unfold carved_of at 1. rewrite Hf. by f_equal. }
    destruct Hgood as [Hgood ->]. by apply starmap_frames_ok.
Qed.
End FurtherProperties.

Section Scaling.
Variable rnd : Q -> Q.
Hypothesis rnd_monotone : forall x y : Q, (x <= y)%Q -> (rnd x <= rnd y)%Q.
Hypothesis rnd_zero : (rnd 0 == 0)%Q.


(** X13. At the default scales 1.0 and 1.0, for a frame whose numbers of
    rows and columns are floats, the library is asked for a width that is
    the number of rows of the frame and a height that is its number of
    columns: the frame's own size exactly when the frame is square. *)
Theorem unit_scale_size (resize : Image -> Z * Z -> Res (option Image))
    (image : Image) :
  (rnd (inject_Z (rows image)) == inject_Z (rows image))%Q ->
  (rnd (inject_Z (cols image)) == inject_Z (cols image))%Q ->
  size_width (target_size rnd image 1 1) = rows image /\
  size_height (target_size rnd image 1 1) = cols image /\
  seam_carve rnd resize image 1 1 = resize image (rows image, cols image) /\
  ((size_width (target_size rnd image 1 1) = cols image /\
    size_height (target_size rnd image 1 1) = rows image)
   <-> rows image = cols image).
Proof.
  intros Hrows Hcols.
  assert (Hint : forall z : Z, (rnd (inject_Z z) == inject_Z z)%Q ->
            int (fmul rnd (inject_Z z) 1) = z).
  { intros z Hz. unfold fmul.
    assert (E : (rnd (inject_Z z * 1) == inject_Z z)%Q).
    { transitivity (rnd (inject_Z z)); [|done]. apply rnd_proper; [done|]. lra. }
    unfold int. destruct (rnd (inject_Z z * 1)) as [num den].
    unfold Qeq in E. simpl in *. rewrite Z.mul_1_r in E. rewrite E.
    apply Z.quot_mul. lia. }
  assert (Hsize : target_size rnd image 1 1 = (rows image, cols image)).
  { unfold target_size, shape. simpl. by rewrite !Hint. }
  rewrite Hsize. unfold size_width, size_height. simpl.
  split; [done|]. split; [done|]. split.
  - unfold seam_carve. rewrite Hsize. by destruct (resize image _).
  - split; [by intros [? _] | by intros ->].
Qed.
End Scaling.

Section Signs.
Variable rnd : Q -> Q.
Hypothesis rnd_monotone : forall x y : Q, (x <= y)%Q -> (rnd x <= rnd y)%Q.
Hypothesis rnd_zero : (rnd 0 == 0)%Q.

Lemma rnd_nonneg (x : Q) : (0 <= x)%Q -> (0 <= rnd x)%Q.
Proof.
  intros H. apply Qle_trans with (rnd 0); [rewrite rnd_zero; apply Qle_refl|].
  by apply rnd_monotone.
Qed.

Lemma rnd_nonpos (x : Q) : (x <= 0)%Q -> (rnd x <= 0)%Q.
Proof.
  intros H. apply Qle_trans with (rnd 0); [|rewrite rnd_zero; apply Qle_refl].
  by apply rnd_monotone.
Qed.

(** X14. The statistics guard against an elapsed time of zero, not against
    a clock that went back: the average of frames per second is never
    negative, it is 0 when the clock did not advance, and the average of
    seconds per frame has the sign of the elapsed time. *)
Theorem statistics_signs (start_time end_time : Q) (processed : Z) :
  0 <= processed ->
  exists stats,
    statistics rnd start_time end_time processed = Ok stats /\
    (0 <= average_fps stats)%Q /\
    ((0 <= total_time stats)%Q -> (0 <= average_spf stats)%Q) /\
    ((total_time stats <= 0)%Q ->
     average_fps stats = 0%Q /\ (average_spf stats <= 0)%Q).
Proof.
  intros Hprocessed.
  unfold statistics, fdiv. unfold mbind, Res_bind, mret, Res_ret.
  set (total := fsub rnd end_time start_time).
  assert (Hn : 0 < processed -> Qeq_bool (inject_Z processed) 0 = false).
  { intros Hp. destruct (Qeq_bool _ _) eqn:E; [|done].
    apply Qeq_bool_iff in E. unfold Qeq in E. simpl in E. lia. }
  assert (Hq : 0 < processed -> (0 < inject_Z processed)%Q).
  { intros Hp. change 0%Q with (inject_Z 0). by rewrite <- Zlt_Qlt. }
  assert (Hdiv_nonneg : forall a b : Q, (0 <= a)%Q -> (0 < b)%Q -> (0 <= a / b)%Q).
  { intros a b Ha Hb. apply Qle_shift_div_l; [done|]. lra. }
  assert (Hdiv_nonpos : forall a b : Q, (a <= 0)%Q -> (0 < b)%Q -> (a / b <= 0)%Q).
  { intros a b Ha Hb. apply Qle_shift_div_r; [done|]. lra. }
  destruct (Qlt_le_dec 0 total) as [Hpos | Hneg].
  - destruct (Qeq_bool total 0) eqn:E; [apply Qeq_bool_iff in E; lra|].
    assert (Hfps : (0 <= rnd (inject_Z processed / total))%Q).
    { apply rnd_nonneg, Hdiv_nonneg; [|done].
      change 0%Q with (inject_Z 0). by rewrite <- Zle_Qle. }
    destruct (Z.ltb_spec 0 processed) as [Hp | Hp].
    + rewrite (Hn Hp). eexists. split; [done|]. simpl.
      split; [done|]. split; [|intros; lra].
      intros _. apply rnd_nonneg, Hdiv_nonneg; [lra | by apply Hq].
    + eexists. split; [done|]. simpl. split; [done|]. split; [lra | intros; lra].
  - destruct (Z.ltb_spec 0 processed) as [Hp | Hp].
    + rewrite (Hn Hp). eexists. split; [done|]. simpl.
      split; [lra|]. split.
      * intros H0. apply rnd_nonneg, Hdiv_nonneg; [done | by apply Hq].
      * intros _. split; [done|]. apply rnd_nonpos, Hdiv_nonpos; [done | by apply Hq].
    + eexists. split; [done|]. simpl. split; [lra|]. split; [lra|]. split; [done | lra].
Qed.
End Signs.


(** ** The further properties on examples *)

Lemma loop_bound_is_enough_witness :
  (length (video_frames (video (test_env (test_video 3 3)))) < 10)%nat /\
  exists st0,
    setup exact swap_cvtColor crop_resize (test_env (test_video 3 3)) "out.mp4" (1 # 2) 1
    = inr st0 /\
    loop exact swap_cvtColor crop_resize in_order 10 (1 # 2) 1 3 st0
    = loop exact swap_cvtColor crop_resize in_order 4 (1 # 2) 1 3 st0.
Proof.
  split; [simpl; lia|].
  eexists. split; [vm_compute; reflexivity|].
  apply (proj2 (loop_bound_is_enough exact swap_cvtColor crop_resize in_order
                  (test_env (test_video 3 3)) "out.mp4" (1 # 2) 1)).
  - vm_compute. reflexivity.
  - simpl. lia.
Defined.

Lemma early_returns_witness :
  process_video exact swap_cvtColor crop_resize in_order
                (test_env (test_video 0 0)) "out.mp4" (1 # 2) 1
  = Some NoFirstFrame.
Proof.
  apply (proj2 (proj2 (proj2 (early_returns exact swap_cvtColor crop_resize in_order
                                (test_env (test_video 0 0)) "out.mp4" (1 # 2) 1)))).
  repeat split.
Defined.

(** A video whose first frame is too narrow to be carved. *)
Lemma probe_failures_witness :
  process_video exact swap_cvtColor crop_resize in_order
                (test_env narrow_video) "out.mp4" (1 # 2) 1
  = Some FirstFrameFailed.
Proof.
  apply (proj2 (proj1 (probe_failures exact swap_cvtColor crop_resize in_order
                         (test_env narrow_video) "out.mp4" (1 # 2) 1))).
  split; [reflexivity|]. split; [reflexivity|].
  eexists _, _. split; [reflexivity|]. split; reflexivity.
Defined.

Lemma sink_parameters_witness :
  exists st stats,
    process_video exact swap_cvtColor crop_resize in_order
                  (test_env (test_video 3 3)) "out.mp4" (1 # 2) 1
    = Some (Completed st stats) /\
    vw_size (out st) = (1, 1) /\
    vw_fps (out st) = 30 /\
    vw_path (out st) = "/home/user/out.mp4".
Proof.
  eexists _, _. split; [vm_compute; reflexivity|].
  edestruct (sink_parameters exact swap_cvtColor crop_resize in_order
               (test_env (test_video 3 3)) "out.mp4" (1 # 2) 1)
    as (frame & frame_rgb & carved_frame & Hhead & Hrgb & Hcarve & Hsize & Hfps & _ & Hpath).
  - vm_compute. reflexivity.
  - reflexivity.
  - injection Hhead as <-. injection Hrgb as <-. injection Hcarve as <-.
    split; [exact Hsize|]. split; [exact Hfps | exact Hpath].
Defined.

Lemma exception_stops_at_failing_batch_witness :
  int (video_frame_count (video (test_env corrupt_video))) <> 0 /\
  exists e st done failing frame,
    process_video exact swap_cvtColor crop_resize in_order
                  (test_env corrupt_video) "out.mp4" (1 # 2) 1
    = Some (Aborted e st) /\
    pool_calls (pool st) = done ++ [failing] /\
    frame ∈ failing /\
    process_frame exact swap_cvtColor crop_resize frame (1 # 2) 1 = Raise e /\
    vw_frames (out st) = omap half_width (concat done).
Proof.
  assert (Hnz : int (video_frame_count (video (test_env corrupt_video))) <> 0)
    by discriminate.
  split; [exact Hnz|].
  eexists _, _.
  edestruct (exception_stops_at_failing_batch exact swap_cvtColor crop_resize in_order
               (test_env corrupt_video) "out.mp4" (1 # 2) 1)
    as (done & failing & frame & Hpool & _ & Hin & Hraise & _ & Hout & _);
    [vm_compute; reflexivity | exact Hnz |].
  exists done, failing, frame.
  split; [vm_compute; reflexivity|]. split; [exact Hpool|].
  split; [exact Hin|]. split; [exact Hraise | exact Hout].
Defined.

(** Three frames on a source that seeks: between one and three frames are
    written. *)
Lemma completed_run_output_witness :
  exists st stats,
    process_video exact swap_cvtColor crop_resize in_order
                  (test_env (test_video 3 3)) "out.mp4" (1 # 2) 1
    = Some (Completed st stats) /\
    1 <= total_processed_frames st <= 3.
Proof.
  eexists _, _. split; [vm_compute; reflexivity|].
  edestruct (completed_run_output exact swap_cvtColor crop_resize in_order
               (test_env (test_video 3 3)) "out.mp4" (1 # 2) 1)
    as (_ & _ & Hseek & _); [vm_compute; reflexivity|].
  exact (proj2 (proj2 (Hseek eq_refl))).
Defined.

Lemma starmap_raises_iff_frame_raises_witness :
  raises (starmap_frames exact swap_cvtColor crop_resize (last_first 0)
                         corrupt_batch (1 # 2) 1).
Proof.
  apply (proj2 (proj1 (starmap_raises_iff_frame_raises exact swap_cvtColor crop_resize
                         (last_first 0) corrupt_batch (1 # 2) 1))).
  exists corrupt_frame. split.
  - apply list_elem_of_lookup. by exists 1%nat.
  - by eexists.
Defined.

Lemma process_batch_first_failure_witness :
  exists before frame after,
    corrupt_batch = before ++ frame :: after /\
    Forall (fun f => ~ raises (process_frame exact swap_cvtColor crop_resize f (1 # 2) 1))
           before /\
    process_frame exact swap_cvtColor crop_resize frame (1 # 2) 1
    = Raise (Error "cvtColor: empty image").
Proof.
  apply (proj1 (process_batch_first_failure exact swap_cvtColor crop_resize
                  corrupt_batch (1 # 2) 1 (Error "cvtColor: empty image"))).
  reflexivity.
Defined.

Lemma starmap_agrees_with_process_batch_witness :
  exists results,
    process_batch exact swap_cvtColor crop_resize narrow_buffer (1 # 2) 1 = Ok results /\
    starmap_frames exact swap_cvtColor crop_resize (last_first 0) narrow_buffer (1 # 2) 1
    = Ok results.
Proof.
  eexists. split; [vm_compute; reflexivity|].
  apply (proj2 (starmap_agrees_with_process_batch exact swap_cvtColor crop_resize
                  (last_first 0) narrow_buffer (1 # 2) 1 _)).
  vm_compute. reflexivity.
Defined.


(** The frame of one row and three columns at the default scales: the
    library is asked for a width of 1 and a height of 3, and the stand-in
    gives a frame of three rows and one column. *)
Lemma unit_scale_size_witness :
  size_width (target_size exact wide_frame 1 1) = 1 /\
  size_height (target_size exact wide_frame 1 1) = 3 /\
  exists carved_frame,
    seam_carve exact crop_resize wide_frame 1 1 = Ok (Some carved_frame) /\
    shape carved_frame = (3, 1).
Proof.
  destruct (unit_scale_size exact exact_mono crop_resize wide_frame
              (exact_eq _) (exact_eq _)) as (Hwidth & Hheight & Hcarve & _).
  split; [exact Hwidth|]. split; [exact Hheight|].
  eexists. split; [rewrite Hcarve; reflexivity | reflexivity].
Defined.

(** The clock went back by two seconds while three frames were written. *)
Lemma statistics_signs_witness :
  0 <= 3 /\
  exists stats,
    statistics exact 12 10 3 = Ok stats /\
    average_fps stats = 0%Q /\ (average_spf stats <= 0)%Q.
Proof.
  split; [lia|].
  destruct (statistics_signs exact exact_mono (exact_eq 0) 12 10 3 ltac:(lia))
    as (stats & Hstats & _ & _ & Hback).
  exists stats. split; [exact Hstats|].
  apply Hback. injection Hstats as <-. simpl. discriminate.
Defined.
